(** * Chess simulator: the game-state controller of [App.tsx]

    A shallow embedding of the React component [App] (state variables,
    [syncGameState], [makeMove], [onSquareClick], [resetGame],
    [getCoachAnalysis], [undoMove]) over a model of the [Chess] class of
    the chess.js library it drives, followed by the properties of the
    controller. *)

From Stdlib Require Import List Bool Arith ZArith Lia String Ascii DecimalString.
Import ListNotations.

(** ** types.ts *)

(** [PieceColor = 'w' | 'b'] *)
Inductive PieceColor : Type := White | Black.

(** [PieceType = 'p' | 'n' | 'b' | 'r' | 'q' | 'k'] *)
Inductive PieceType : Type := Pawn | Knight | Bishop | Rook | Queen | King.

Record Piece : Type := mkPiece { piece_type : PieceType; piece_color : PieceColor }.

(** [enum SoundType] *)
Inductive SoundType : Type := MOVE | CAPTURE | CHECK | START | END.

(** Modelled from the spec: [constants.ts], which holds [FILES] and
    [RANKS], is not among the sources.  A square id is the string
    [`${file}${rank}`] that the board renders and chess.js reads: one of
    the 64 names a1 to h8. *)
Inductive File : Type := Fa | Fb | Fc | Fd | Fe | Ff | Fg | Fh.
Inductive Rank : Type := R1 | R2 | R3 | R4 | R5 | R6 | R7 | R8.
Definition Square : Type := (File * Rank)%type.

Definition PieceColor_eq_dec (x y : PieceColor) : {x = y} + {x <> y}.
Proof. decide equality. Defined.

Definition PieceType_eq_dec (x y : PieceType) : {x = y} + {x <> y}.
Proof. decide equality. Defined.

Definition File_eq_dec (x y : File) : {x = y} + {x <> y}.
Proof. decide equality. Defined.

Definition Rank_eq_dec (x y : Rank) : {x = y} + {x <> y}.
Proof. decide equality. Defined.

Definition Square_eq_dec (x y : Square) : {x = y} + {x <> y}.
Proof. decide equality; [apply Rank_eq_dec | apply File_eq_dec]. Defined.

Definition Square_eqb (x y : Square) : bool :=
  if Square_eq_dec x y then true else false.

Definition PieceColor_eqb (x y : PieceColor) : bool :=
  if PieceColor_eq_dec x y then true else false.

Definition PieceType_eqb (x y : PieceType) : bool :=
  if PieceType_eq_dec x y then true else false.

(** The verbose move object of chess.js, with the fields the controller
    reads ([color], [captured]) and those that identify the move.  The
    fields that only the rendering reads ([san], [flags], [lan], [before],
    [after]) are left out. *)
Record Move : Type := mkMove {
  move_color : PieceColor;
  move_from : Square;
  move_to : Square;
  move_piece : PieceType;
  move_captured : option PieceType;
  move_promotion : option PieceType
}.

(** The argument of [makeMove]: [{ from; to; promotion? }].  The source
    types [promotion] as a string; a string that names no piece matches
    no promotion, exactly as [Some King] does here. *)
Record MoveRequest : Type := mkRequest {
  req_from : Square;
  req_to : Square;
  req_promotion : option PieceType
}.

(** [winner: PieceColor | 'draw' | null] *)
Inductive Winner : Type :=
| WinnerColor (c : PieceColor)
| WinnerDraw.

Record Captured : Type := mkCaptured {
  captured_w : list PieceType;
  captured_b : list PieceType
}.

Record GameState : Type := mkGameState {
  fen : string;
  turn : PieceColor;
  history : list Move;
  isCheck : bool;
  isCheckmate : bool;
  isDraw : bool;
  winner : option Winner;
  captured : Captured
}.

(** ** The rules of the game

    chess.js is a dependency of the repository.  What it computes from a
    position (the contents of a FEN string: board, side to move, castling
    rights, en-passant square and the two move counters) is taken here as
    a record of operations; [StandardChess] below implements them. *)
Record RulesEngine : Type := mkRulesEngine {
  Position : Type;
  (** [DEFAULT_POSITION] *)
  DEFAULT_POSITION : Position;
  (** the FEN string of a position *)
  fen_string : Position -> string;
  pos_turn : Position -> PieceColor;
  pos_get : Position -> Square -> option Piece;
  (** the legal moves, each with the position it leads to *)
  pos_moves : Position -> list (Move * Position);
  (** the king of the side to move is attacked *)
  pos_inCheck : Position -> bool;
  pos_insufficientMaterial : Position -> bool;
  (** the half-move clock *)
  pos_halfMoves : Position -> nat;
  (** same position for the repetition rule *)
  pos_repeats : Position -> Position -> bool
}.

(** ** The [Chess] class of chess.js

    The class is imported from the library (version 1.x, by the names of
    the methods the component calls); this is its behaviour as far as the
    component can observe it.  An instance owns a position and the stack
    of the moves made on this instance, each with the position it was
    made from.  A FEN string carries the position only: an instance built
    from one starts with an empty stack. *)
Module Chess.
Section ChessClass.
Context {E : RulesEngine}.

Record t : Type := mk {
  position : Position E;
  (** [_history]; the head of the list is the top of the stack *)
  _history : list (Position E * Move)
}.

(** [new Chess(fen)]: [load] clears the instance and reads the position. *)
Definition load (p : Position E) : t :=
  {| position := p; _history := [] |}.

(** [new Chess()] *)
Definition new : t := load (DEFAULT_POSITION E).

(** [fen()], as the position the string encodes *)
Definition fen (c : t) : Position E := position c.

Definition fenString (c : t) : string := fen_string E (position c).

Definition turn (c : t) : PieceColor := pos_turn E (position c).

Definition get (c : t) (sq : Square) : option Piece := pos_get E (position c) sq.

Definition _moves (c : t) : list (Move * Position E) := pos_moves E (position c).

(** [moves({ square, verbose: true })] *)
Definition moves (c : t) (sq : Square) : list Move :=
  filter (fun m => Square_eqb (move_from m) sq) (map fst (_moves c)).

Definition isCheck (c : t) : bool := pos_inCheck E (position c).

Definition isCheckmate (c : t) : bool :=
  isCheck c && (List.length (_moves c) =? 0).

Definition isStalemate (c : t) : bool :=
  negb (isCheck c) && (List.length (_moves c) =? 0).

Definition isInsufficientMaterial (c : t) : bool :=
  pos_insufficientMaterial E (position c).

Definition isDrawByFiftyMoves (c : t) : bool :=
  100 <=? pos_halfMoves E (position c).

(** The positions this instance has been in: the current one and the
    one before each move of the stack. *)
Definition _positions (c : t) : list (Position E) :=
  position c :: map fst (_history c).

Definition _getPositionCount (c : t) : nat :=
  List.length (filter (pos_repeats E (position c)) (_positions c)).

Definition isThreefoldRepetition (c : t) : bool :=
  3 <=? _getPositionCount c.

Definition isDraw (c : t) : bool :=
  isDrawByFiftyMoves c || isStalemate c || isInsufficientMaterial c
  || isThreefoldRepetition c.

(** [history({ verbose: true })], oldest move first *)
Definition history (c : t) : list Move := rev (map snd (_history c)).

(** The test of [move] on a legal move: same origin, same destination,
    and the same promotion piece when the legal move promotes. *)
Definition matches (r : MoveRequest) (m : Move) : bool :=
  Square_eqb (req_from r) (move_from m)
  && Square_eqb (req_to r) (move_to m)
  && match move_promotion m with
     | None => true
     | Some pr =>
         match req_promotion r with
         | Some pr' => PieceType_eqb pr' pr
         | None => false
         end
     end.

(** [move({ from, to, promotion })].  [None] stands for the failure of
    the call (an exception in chess.js 1.x, [null] before), in which the
    instance is left as it was. *)
Definition move (c : t) (r : MoveRequest) : option (Move * t) :=
  match find (fun mp => matches r (fst mp)) (_moves c) with
  | Some (m, p') =>
      Some (m, {| position := p'; _history := (position c, m) :: _history c |})
  | None => None
  end.

(** [undo()]: the move taken back, or [null] on an empty stack *)
Definition undo (c : t) : option Move * t :=
  match _history c with
  | [] => (None, c)
  | (p, m) :: rest => (Some m, {| position := p; _history := rest |})
  end.

End ChessClass.
Arguments t : clear implicits.
End Chess.

(** ** App.tsx: the state of the component *)

Record AppState {E : RulesEngine} : Type := mkAppState {
  game : Chess.t E;
  selectedSquare : option Square;
  validMoves : list Square;
  gameState : GameState;
  analysis : option string;
  isAnalyzing : bool;
  isMuted : bool
}.
Arguments AppState : clear implicits.

(** The arguments of [geminiService.analyzePosition]. *)
Record AnalysisRequest : Type := mkAnalysisRequest {
  request_fen : string;
  request_history : list Move
}.

(** What the page lets the user do, and the one thing that happens by
    itself: the advisory text arriving. *)
Inductive Event : Type :=
| SquareClick (sq : Square)
| NewGameClick
| UndoClick
| AnalyzeClick
| MuteClick
| AnalysisArrives (text : string).

Section Controller.
Context {E : RulesEngine}.

(** The values of the [useState] calls on the first render. *)
Definition initialState : AppState E :=
  {| game := Chess.new;
     selectedSquare := None;
     validMoves := [];
     gameState :=
       {| fen := "start"%string; turn := White; history := [];
          isCheck := false; isCheckmate := false; isDraw := false;
          winner := None;
          captured := {| captured_w := []; captured_b := [] |} |};
     analysis := None;
     isAnalyzing := false;
     isMuted := false |}.

Definition setGame (c : Chess.t E) (s : AppState E) : AppState E :=
  {| game := c; selectedSquare := selectedSquare s;
     validMoves := validMoves s; gameState := gameState s;
     analysis := analysis s; isAnalyzing := isAnalyzing s;
     isMuted := isMuted s |}.

Definition setSelectedSquare (v : option Square) (s : AppState E) : AppState E :=
  {| game := game s; selectedSquare := v;
     validMoves := validMoves s; gameState := gameState s;
     analysis := analysis s; isAnalyzing := isAnalyzing s;
     isMuted := isMuted s |}.

Definition setValidMoves (v : list Square) (s : AppState E) : AppState E :=
  {| game := game s; selectedSquare := selectedSquare s;
     validMoves := v; gameState := gameState s;
     analysis := analysis s; isAnalyzing := isAnalyzing s;
     isMuted := isMuted s |}.

Definition setGameState (g : GameState) (s : AppState E) : AppState E :=
  {| game := game s; selectedSquare := selectedSquare s;
     validMoves := validMoves s; gameState := g;
     analysis := analysis s; isAnalyzing := isAnalyzing s;
     isMuted := isMuted s |}.

Definition setAnalysis (a : option string) (s : AppState E) : AppState E :=
  {| game := game s; selectedSquare := selectedSquare s;
     validMoves := validMoves s; gameState := gameState s;
     analysis := a; isAnalyzing := isAnalyzing s;
     isMuted := isMuted s |}.

Definition setIsAnalyzing (a : bool) (s : AppState E) : AppState E :=
  {| game := game s; selectedSquare := selectedSquare s;
     validMoves := validMoves s; gameState := gameState s;
     analysis := analysis s; isAnalyzing := a;
     isMuted := isMuted s |}.

Definition setIsMuted (a : bool) (s : AppState E) : AppState E :=
  {| game := game s; selectedSquare := selectedSquare s;
     validMoves := validMoves s; gameState := gameState s;
     analysis := analysis s; isAnalyzing := isAnalyzing s;
     isMuted := a |}.

(** [captured[capturedColor].push(piece)] *)
Definition push_captured (c : Captured) (capturedColor : PieceColor)
    (pc : PieceType) : Captured :=
  match capturedColor with
  | White => {| captured_w := captured_w c ++ [pc]; captured_b := captured_b c |}
  | Black => {| captured_w := captured_w c; captured_b := captured_b c ++ [pc] |}
  end.

(** The body of the [forEach] of [syncGameState]. *)
Definition count_capture (c : Captured) (m : Move) : Captured :=
  match move_captured m with
  | Some pc =>
      let capturedColor :=
        match move_color m with White => Black | Black => White end in
      push_captured c capturedColor pc
  | None => c
  end.

Definition calculateCaptured (h : list Move) : Captured :=
  fold_left count_capture h {| captured_w := []; captured_b := [] |}.

(** [syncGameState(chess)]: the value handed to [setGameState]. *)
Definition syncGameState (chess : Chess.t E) : GameState :=
  let history := Chess.history chess in
  let captured := calculateCaptured history in
  {| fen := Chess.fenString chess;
     turn := Chess.turn chess;
     history := history;
     isCheck := Chess.isCheck chess;
     isCheckmate := Chess.isCheckmate chess;
     isDraw := Chess.isDraw chess || Chess.isStalemate chess
               || Chess.isThreefoldRepetition chess;
     winner :=
       if Chess.isCheckmate chess
       then Some (WinnerColor
                    (match Chess.turn chess with White => Black | Black => White end))
       else if Chess.isDraw chess then Some WinnerDraw else None;
     captured := captured |}.

(** [playSound(type)] hands [type] to the audio service unless muted.
    Handlers below return the list of their [playSound] calls, the
    feedback events; [audible] is what reaches [audioService.play]. *)
Definition audible (s : AppState E) (events : list SoundType) : list SoundType :=
  if negb (isMuted s) then events else [].

(** [makeMove(move)]: the next state, the returned value ([None] for
    [null]) and the feedback events. *)
Definition makeMove (s : AppState E) (mv : MoveRequest)
    : AppState E * option Move * list SoundType :=
  let chess := Chess.load (Chess.fen (game s)) in
  match Chess.move chess mv with
  | Some (result, chess) =>
      let s1 := setGame chess s in
      let s2 := setGameState (syncGameState chess) s1 in
      let sound :=
        if Chess.isCheckmate chess || Chess.isDraw chess then END
        else if Chess.isCheck chess then CHECK
        else match move_captured result with
             | Some _ => CAPTURE
             | None => MOVE
             end in
      let s3 := setSelectedSquare None s2 in
      let s4 := setValidMoves [] s3 in
      let s5 := setAnalysis None s4 in
      (s5, Some result, [sound])
  | None => (s, None, [])
  end.

(** The last block of [onSquareClick], under the comment "Select
    piece": the clicked square becomes the selection when it holds a
    piece of the side to move, the selection is dropped otherwise. *)
Definition selectPiece (s : AppState E) (square : Square) : AppState E :=
  match Chess.get (game s) square with
  | Some piece =>
      if PieceColor_eqb (piece_color piece) (Chess.turn (game s))
      then
        let s1 := setSelectedSquare (Some square) s in
        let moves := Chess.moves (game s) square in
        setValidMoves (map move_to moves) s1
      else setValidMoves [] (setSelectedSquare None s)
  | None => setValidMoves [] (setSelectedSquare None s)
  end.

(** [onSquareClick(square)] *)
Definition onSquareClick (s : AppState E) (square : Square)
    : AppState E * list SoundType :=
  if isCheckmate (gameState s) || isDraw (gameState s) then (s, [])
  else
    match selectedSquare s with
    | Some sel =>
        if Square_eqb sel square
        then (setValidMoves [] (setSelectedSquare None s), [])
        else
          (* If a square is already selected, try to move *)
          match makeMove s {| req_from := sel; req_to := square;
                              req_promotion := Some Queen |} with
          | (s', Some _, events) => (s', events)
          | (_, None, _) => (selectPiece s square, [])
          end
    | None => (selectPiece s square, [])
    end.

(** [resetGame()] *)
Definition resetGame (s : AppState E) : AppState E * list SoundType :=
  let newGame := Chess.new in
  let s1 := setGame newGame s in
  let s2 := setGameState (syncGameState newGame) s1 in
  let s3 := setAnalysis None s2 in
  let s4 := setSelectedSquare None s3 in
  let s5 := setValidMoves [] s4 in
  (s5, [START]).

(** [undoMove()] *)
Definition undoMove (s : AppState E) : AppState E * list SoundType :=
  let chess := Chess.load (Chess.fen (game s)) in
  let chess := snd (Chess.undo chess) in
  let s1 := setGame chess s in
  let s2 := setGameState (syncGameState chess) s1 in
  let s3 := setSelectedSquare None s2 in
  let s4 := setValidMoves [] s3 in
  (s4, [MOVE]).

(** [getCoachAnalysis()] is asynchronous.  [getCoachAnalysis_call] is
    what runs before the [await]: the state update and the request handed
    to [geminiService.analyzePosition]; [getCoachAnalysis_resume] is what
    runs when the promise resolves with [result].  The service catches
    its own errors and always resolves with some text.  [game.history()]
    gives the moves in algebraic notation; the request keeps the moves. *)
Definition getCoachAnalysis_call (s : AppState E) : AppState E * AnalysisRequest :=
  (setIsAnalyzing true s,
   {| request_fen := Chess.fenString (game s);
      request_history := Chess.history (game s) |}).

Definition getCoachAnalysis_resume (result : string) (s : AppState E) : AppState E :=
  let s1 := setAnalysis (Some result) s in
  setIsAnalyzing false s1.

(** ** The component as a transition system

    The state of the component together with the advisory request in
    flight, if any.  Events are the clicks the rendered page offers and
    the arrival of the advisory text. *)
Record World : Type := mkWorld {
  app : AppState E;
  pending : option AnalysisRequest
}.

Definition initialWorld : World := {| app := initialState; pending := None |}.

Definition step (w : World) (e : Event) : World * list SoundType :=
  match e with
  | SquareClick sq =>
      let (s, events) := onSquareClick (app w) sq in
      ({| app := s; pending := pending w |}, events)
  | NewGameClick =>
      let (s, events) := resetGame (app w) in
      ({| app := s; pending := pending w |}, events)
  | UndoClick =>
      let (s, events) := undoMove (app w) in
      ({| app := s; pending := pending w |}, events)
  | MuteClick =>
      ({| app := setIsMuted (negb (isMuted (app w))) (app w); pending := pending w |}, [])
  | AnalyzeClick =>
      (* the button is disabled while [isAnalyzing] *)
      if isAnalyzing (app w) then (w, [])
      else
        let (s, request) := getCoachAnalysis_call (app w) in
        ({| app := s; pending := Some request |}, [])
  | AnalysisArrives text =>
      match pending w with
      | Some _ =>
          ({| app := getCoachAnalysis_resume text (app w); pending := None |}, [])
      | None => (w, [])
      end
  end.

Fixpoint run (w : World) (es : list Event) : World * list SoundType :=
  match es with
  | [] => (w, [])
  | e :: rest =>
      let (w1, events1) := step w e in
      let (w2, events2) := run w1 rest in
      (w2, events1 ++ events2)
  end.

(** The moves of a game played through [makeMove], with every move the
    calls returned: the applied-move history of the whole game. *)
Fixpoint playMoves (s : AppState E) (l : list MoveRequest)
    : AppState E * list Move * list SoundType :=
  match l with
  | [] => (s, [], [])
  | mv :: rest =>
      match makeMove s mv with
      | (s1, Some m, events1) =>
          let '(s2, applied, events2) := playMoves s1 rest in
          (s2, m :: applied, events1 ++ events2)
      | (s1, None, events1) =>
          let '(s2, applied, events2) := playMoves s1 rest in
          (s2, applied, events1 ++ events2)
      end
  end.

End Controller.
Arguments World : clear implicits.

(** ** The standard rules

    An executable rendering of the rules as chess.js plays them, on an
    8x8 board addressed by file and rank (0 to 7 each).  It is the engine
    the scenarios below run on. *)
Module StandardChess.

Local Open Scope Z_scope.

Definition Coord : Type := (Z * Z)%type.

Definition files : list File := [Fa; Fb; Fc; Fd; Fe; Ff; Fg; Fh].
Definition ranks : list Rank := [R1; R2; R3; R4; R5; R6; R7; R8].

Definition file_index (f : File) : Z :=
  match f with
  | Fa => 0 | Fb => 1 | Fc => 2 | Fd => 3 | Fe => 4 | Ff => 5 | Fg => 6 | Fh => 7
  end.

Definition rank_index (r : Rank) : Z :=
  match r with
  | R1 => 0 | R2 => 1 | R3 => 2 | R4 => 3 | R5 => 4 | R6 => 5 | R7 => 6 | R8 => 7
  end.

Definition coord_of (sq : Square) : Coord := (file_index (fst sq), rank_index (snd sq)).

Definition square_of (c : Coord) : Square :=
  (nth (Z.to_nat (fst c)) files Fa, nth (Z.to_nat (snd c)) ranks R1).

Definition onBoard (c : Coord) : bool :=
  (0 <=? fst c) && (fst c <? 8) && (0 <=? snd c) && (snd c <? 8).

Definition shift (c d : Coord) : Coord := (fst c + fst d, snd c + snd d).

Definition Coord_eqb (c d : Coord) : bool := (fst c =? fst d) && (snd c =? snd d).

Definition swap_color (c : PieceColor) : PieceColor :=
  match c with White => Black | Black => White end.

Definition Board : Type := list (option Piece).

Definition index (c : Coord) : nat := Z.to_nat (8 * snd c + fst c).

Definition at_ (b : Board) (c : Coord) : option Piece :=
  if onBoard c then nth (index c) b None else None.

Fixpoint set_nth {A : Type} (n : nat) (x : A) (l : list A) : list A :=
  match l, n with
  | [], _ => []
  | _ :: t, O => x :: t
  | h :: t, S k => h :: set_nth k x t
  end.

Definition put (b : Board) (c : Coord) (x : option Piece) : Board :=
  set_nth (index c) x b.

Record Pos : Type := mkPos {
  board : Board;
  side : PieceColor;
  (** castling rights: white king side, white queen side, black king
      side, black queen side *)
  castle_wk : bool;
  castle_wq : bool;
  castle_bk : bool;
  castle_bq : bool;
  epSquare : option Coord;
  halfMoves : nat;
  moveNumber : nat
}.

(** The squares in the order the generator visits them: a8 to h8, then
    rank 7, down to h1. *)
Definition all_coords : list Coord :=
  flat_map (fun r => map (fun f => (f, r)) [0; 1; 2; 3; 4; 5; 6; 7])
           [7; 6; 5; 4; 3; 2; 1; 0].

Definition knight_offsets : list Coord :=
  [(-2, 1); (-1, 2); (1, 2); (2, 1); (2, -1); (1, -2); (-1, -2); (-2, -1)].

Definition bishop_offsets : list Coord := [(-1, 1); (1, 1); (1, -1); (-1, -1)].

Definition rook_offsets : list Coord := [(0, 1); (1, 0); (0, -1); (-1, 0)].

Definition queen_offsets : list Coord :=
  [(-1, 1); (0, 1); (1, 1); (1, 0); (1, -1); (0, -1); (-1, -1); (-1, 0)].

Definition piece_offsets (t : PieceType) : list Coord :=
  match t with
  | Knight => knight_offsets
  | Bishop => bishop_offsets
  | Rook => rook_offsets
  | Queen | King => queen_offsets
  | Pawn => []
  end.

Definition forward (c : PieceColor) : Z :=
  match c with White => 1 | Black => -1 end.

Definition second_rank (c : PieceColor) : Z :=
  match c with White => 1 | Black => 6 end.

Definition last_rank (c : PieceColor) : Z :=
  match c with White => 7 | Black => 0 end.

Definition home_rank (c : PieceColor) : Z :=
  match c with White => 0 | Black => 7 end.

Definition is_piece (b : Board) (c : Coord) (t : PieceType) (col : PieceColor) : bool :=
  match at_ b c with
  | Some pc => PieceType_eqb (piece_type pc) t && PieceColor_eqb (piece_color pc) col
  | None => false
  end.

Definition is_empty (b : Board) (c : Coord) : bool :=
  match at_ b c with Some _ => false | None => true end.

(** The first piece met from [cur] in direction [d], if any. *)
Fixpoint first_piece (b : Board) (d cur : Coord) (fuel : nat) : option Piece :=
  match fuel with
  | O => None
  | S k =>
      let nxt := shift cur d in
      if onBoard nxt
      then match at_ b nxt with
           | Some pc => Some pc
           | None => first_piece b d nxt k
           end
      else None
  end.

Definition slider_hits (b : Board) (by_ : PieceColor) (target : Coord)
    (t : PieceType) (dirs : list Coord) : bool :=
  existsb (fun d =>
             match first_piece b d target 7 with
             | Some pc =>
                 PieceColor_eqb (piece_color pc) by_
                 && (PieceType_eqb (piece_type pc) t
                     || PieceType_eqb (piece_type pc) Queen)
             | None => false
             end) dirs.

(** [_attacked(color, square)]: a piece of [by_] attacks [target]. *)
Definition attacked (b : Board) (by_ : PieceColor) (target : Coord) : bool :=
  is_piece b (shift target (-1, - forward by_)) Pawn by_
  || is_piece b (shift target (1, - forward by_)) Pawn by_
  || existsb (fun d => is_piece b (shift target d) Knight by_) knight_offsets
  || existsb (fun d => is_piece b (shift target d) King by_) queen_offsets
  || slider_hits b by_ target Rook rook_offsets
  || slider_hits b by_ target Bishop bishop_offsets.

Definition king_square (b : Board) (col : PieceColor) : option Coord :=
  find (fun c => is_piece b c King col) all_coords.

(** [_isKingAttacked(color)] *)
Definition isKingAttacked (b : Board) (col : PieceColor) : bool :=
  match king_square b col with
  | Some k => attacked b (swap_color col) k
  | None => false
  end.

Inductive Flag : Type :=
| NORMAL | CAPTURE_FLAG | BIG_PAWN | EP_CAPTURE | KSIDE_CASTLE | QSIDE_CASTLE.

(** The internal move of the generator. *)
Record InternalMove : Type := mkInternal {
  i_color : PieceColor;
  i_from : Coord;
  i_to : Coord;
  i_piece : PieceType;
  i_captured : option PieceType;
  i_promotion : option PieceType;
  i_flag : Flag
}.

(** [addMove]: a pawn that reaches the last rank yields one move per
    promotion piece. *)
Definition addMove (col : PieceColor) (from to : Coord) (t : PieceType)
    (cap : option PieceType) (fl : Flag) : list InternalMove :=
  if PieceType_eqb t Pawn && (snd to =? last_rank col)
  then map (fun pr => mkInternal col from to t cap (Some pr) fl)
           [Queen; Rook; Bishop; Knight]
  else [mkInternal col from to t cap None fl].

Definition pawn_moves (p : Pos) (from : Coord) : list InternalMove :=
  let us := side p in
  let b := board p in
  let one := shift from (0, forward us) in
  let two := shift from (0, 2 * forward us) in
  let pushes :=
    if onBoard one && is_empty b one
    then addMove us from one Pawn None NORMAL
         ++ (if (snd from =? second_rank us) && is_empty b two
             then addMove us from two Pawn None BIG_PAWN else [])
    else [] in
  let capture (df : Z) :=
    let to := shift from (df, forward us) in
    if onBoard to
    then match at_ b to with
         | Some pc =>
             if PieceColor_eqb (piece_color pc) (swap_color us)
             then addMove us from to Pawn (Some (piece_type pc)) CAPTURE_FLAG
             else []
         | None =>
             match epSquare p with
             | Some ep =>
                 if Coord_eqb to ep
                 then addMove us from to Pawn (Some Pawn) EP_CAPTURE else []
             | None => []
             end
         end
    else [] in
  pushes ++ capture (-1) ++ capture 1.

(** The moves of a piece along one offset: one step for knight and king,
    up to the first occupied square for the others. *)
Fixpoint along (b : Board) (us : PieceColor) (t : PieceType) (from d cur : Coord)
    (fuel : nat) : list InternalMove :=
  match fuel with
  | O => []
  | S k =>
      let to := shift cur d in
      if onBoard to
      then match at_ b to with
           | None => mkInternal us from to t None None NORMAL :: along b us t from d to k
           | Some pc =>
               if PieceColor_eqb (piece_color pc) us then []
               else [mkInternal us from to t (Some (piece_type pc)) None CAPTURE_FLAG]
           end
      else []
  end.

Definition reach (t : PieceType) : nat :=
  match t with Knight | King => 1%nat | _ => 7%nat end.

Definition piece_moves (p : Pos) (from : Coord) : list InternalMove :=
  match at_ (board p) from with
  | Some pc =>
      if PieceColor_eqb (piece_color pc) (side p)
      then match piece_type pc with
           | Pawn => pawn_moves p from
           | t => flat_map (fun d => along (board p) (side p) t from d from (reach t))
                           (piece_offsets t)
           end
      else []
  | None => []
  end.

Definition castle_right (p : Pos) (col : PieceColor) (kingside : bool) : bool :=
  match col, kingside with
  | White, true => castle_wk p
  | White, false => castle_wq p
  | Black, true => castle_bk p
  | Black, false => castle_bq p
  end.

Definition castling_moves (p : Pos) : list InternalMove :=
  let us := side p in
  let them := swap_color us in
  let b := board p in
  let r := home_rank us in
  let k := (4, r) in
  if is_piece b k King us
  then
    (if castle_right p us true
        && is_piece b (7, r) Rook us
        && is_empty b (5, r) && is_empty b (6, r)
        && negb (attacked b them k) && negb (attacked b them (5, r))
        && negb (attacked b them (6, r))
     then [mkInternal us k (6, r) King None None KSIDE_CASTLE] else [])
    ++
    (if castle_right p us false
        && is_piece b (0, r) Rook us
        && is_empty b (3, r) && is_empty b (2, r) && is_empty b (1, r)
        && negb (attacked b them k) && negb (attacked b them (3, r))
        && negb (attacked b them (2, r))
     then [mkInternal us k (2, r) King None None QSIDE_CASTLE] else [])
  else [].

Definition pseudo_moves (p : Pos) : list InternalMove :=
  flat_map (piece_moves p) all_coords ++ castling_moves p.

(** [_makeMove], on the position alone. *)
Definition make (p : Pos) (m : InternalMove) : Pos :=
  let us := side p in
  let them := swap_color us in
  let from := i_from m in
  let to := i_to m in
  let b0 := board p in
  let b1 := put (put b0 to (at_ b0 from)) from None in
  let b2 :=
    match i_flag m with
    | EP_CAPTURE => put b1 (fst to, snd to - forward us) None
    | _ => b1
    end in
  let b3 :=
    match i_promotion m with
    | Some pr => put b2 to (Some (mkPiece pr us))
    | None => b2
    end in
  let b4 :=
    match i_flag m with
    | KSIDE_CASTLE =>
        put (put b3 (fst to - 1, snd to) (at_ b3 (fst to + 1, snd to)))
            (fst to + 1, snd to) None
    | QSIDE_CASTLE =>
        put (put b3 (fst to + 1, snd to) (at_ b3 (fst to - 2, snd to)))
            (fst to - 2, snd to) None
    | _ => b3
    end in
  let king_moved := PieceType_eqb (i_piece m) King in
  (* a right goes when the king moves, when its rook leaves the corner,
     and when something lands on the corner *)
  let keep (col : PieceColor) (kingside : bool) :=
    let corner := (if kingside then 7 else 0, home_rank col) in
    castle_right p col kingside
    && negb (PieceColor_eqb col us && king_moved)
    && negb (PieceColor_eqb col us && Coord_eqb from corner)
    && negb (PieceColor_eqb col them && Coord_eqb to corner) in
  {| board := b4;
     side := them;
     castle_wk := keep White true;
     castle_wq := keep White false;
     castle_bk := keep Black true;
     castle_bq := keep Black false;
     epSquare :=
       match i_flag m with
       | BIG_PAWN => Some (fst to, snd to - forward us)
       | _ => None
       end;
     halfMoves :=
       if PieceType_eqb (i_piece m) Pawn then 0%nat
       else match i_captured m with
            | Some _ => 0%nat
            | None => S (halfMoves p)
            end;
     moveNumber :=
       match us with Black => S (moveNumber p) | White => moveNumber p end |}.

(** A move is legal when it does not leave the mover's king attacked. *)
Definition legal (p : Pos) (m : InternalMove) : bool :=
  negb (isKingAttacked (board (make p m)) (side p)).

(** The en-passant square is shown by [fen()] only when a pawn of the
    side to move can legally capture on it; a position read back from its
    string has no other.  Positions are kept in that form. *)
Definition ep_capturable (p : Pos) : bool :=
  match epSquare p with
  | Some ep =>
      existsb (fun df =>
                 let from := (fst ep + df, snd ep - forward (side p)) in
                 is_piece (board p) from Pawn (side p)
                 && legal p (mkInternal (side p) from ep Pawn (Some Pawn) None EP_CAPTURE))
              [1; -1]
  | None => false
  end.

Definition normalize (p : Pos) : Pos :=
  if ep_capturable p then p
  else {| board := board p; side := side p;
          castle_wk := castle_wk p; castle_wq := castle_wq p;
          castle_bk := castle_bk p; castle_bq := castle_bq p;
          epSquare := None;
          halfMoves := halfMoves p; moveNumber := moveNumber p |}.

Definition pretty (m : InternalMove) : Move :=
  {| move_color := i_color m;
     move_from := square_of (i_from m);
     move_to := square_of (i_to m);
     move_piece := i_piece m;
     move_captured := i_captured m;
     move_promotion := i_promotion m |}.

(** [_moves()]: the legal moves, each with the position after it. *)
Definition legal_moves (p : Pos) : list (Move * Pos) :=
  map (fun m => (pretty m, normalize (make p m)))
      (filter (legal p) (pseudo_moves p)).

Definition inCheck (p : Pos) : bool := isKingAttacked (board p) (side p).

(** [isInsufficientMaterial()]: two kings; two kings and one bishop or
    knight; kings and bishops that all stand on squares of one colour. *)
Definition pieces (b : Board) : list (Coord * Piece) :=
  flat_map (fun c => match at_ b c with Some pc => [(c, pc)] | None => [] end)
           all_coords.

Definition count_type (t : PieceType) (l : list (Coord * Piece)) : nat :=
  List.length (filter (fun cp => PieceType_eqb (piece_type (snd cp)) t) l).

Definition insufficientMaterial (p : Pos) : bool :=
  let l := pieces (board p) in
  let numPieces := List.length l in
  let bishops :=
    map (fun cp => Z.odd (fst (fst cp) + snd (fst cp)))
        (filter (fun cp => PieceType_eqb (piece_type (snd cp)) Bishop) l) in
  if (numPieces =? 2)%nat then true
  else if (numPieces =? 3)%nat
          && ((count_type Bishop l =? 1)%nat || (count_type Knight l =? 1)%nat)
  then true
  else if (numPieces =? count_type Bishop l + 2)%nat
  then forallb (fun x => x) bishops || forallb negb bishops
  else false.

Definition Board_eqb (b1 b2 : Board) : bool :=
  forallb (fun c =>
             match at_ b1 c, at_ b2 c with
             | Some x, Some y =>
                 PieceType_eqb (piece_type x) (piece_type y)
                 && PieceColor_eqb (piece_color x) (piece_color y)
             | None, None => true
             | _, _ => false
             end) all_coords.

(** Equality of the first four fields of the FEN string. *)
Definition repeats (p1 p2 : Pos) : bool :=
  Board_eqb (board p1) (board p2)
  && PieceColor_eqb (side p1) (side p2)
  && Bool.eqb (castle_wk p1) (castle_wk p2)
  && Bool.eqb (castle_wq p1) (castle_wq p2)
  && Bool.eqb (castle_bk p1) (castle_bk p2)
  && Bool.eqb (castle_bq p1) (castle_bq p2)
  && match epSquare p1, epSquare p2 with
     | Some a, Some c => Coord_eqb a c
     | None, None => true
     | _, _ => false
     end.

Definition get (p : Pos) (sq : Square) : option Piece := at_ (board p) (coord_of sq).

(** [fen()] *)
Definition piece_letter (pc : Piece) : ascii :=
  match piece_color pc, piece_type pc with
  | White, Pawn => "P" | White, Knight => "N" | White, Bishop => "B"
  | White, Rook => "R" | White, Queen => "Q" | White, King => "K"
  | Black, Pawn => "p" | Black, Knight => "n" | Black, Bishop => "b"
  | Black, Rook => "r" | Black, Queen => "q" | Black, King => "k"
  end%char.

Definition decimal (n : nat) : string := NilZero.string_of_uint (Nat.to_uint n).

Definition flush (empty : nat) : string :=
  match empty with O => EmptyString | _ => decimal empty end.

Fixpoint rank_string (cells : list (option Piece)) (empty : nat) : string :=
  match cells with
  | [] => flush empty
  | None :: t => rank_string t (S empty)
  | Some pc :: t => (flush empty ++ String (piece_letter pc) (rank_string t O))%string
  end.

Definition rank_cells (b : Board) (r : Z) : list (option Piece) :=
  map (fun f => at_ b (f, r)) [0; 1; 2; 3; 4; 5; 6; 7].

Definition placement (b : Board) : string :=
  String.concat "/" (map (fun r => rank_string (rank_cells b r) O)
                         [7; 6; 5; 4; 3; 2; 1; 0]).

Definition algebraic (c : Coord) : string :=
  String (nth (Z.to_nat (fst c)) ["a"; "b"; "c"; "d"; "e"; "f"; "g"; "h"] "a")%char
         (decimal (Z.to_nat (snd c + 1))).

Definition castling_string (p : Pos) : string :=
  let s := ((if castle_wk p then "K" else "") ++ (if castle_wq p then "Q" else "")
            ++ (if castle_bk p then "k" else "") ++ (if castle_bq p then "q" else ""))%string in
  match s with EmptyString => "-"%string | _ => s end.

Definition fen (p : Pos) : string :=
  String.concat " "
    [placement (board p);
     match side p with White => "w" | Black => "b" end;
     castling_string p;
     match epSquare p with Some ep => algebraic ep | None => "-" end;
     decimal (halfMoves p);
     decimal (moveNumber p)]%string.

Definition back_rank (col : PieceColor) : list (option Piece) :=
  map (fun t => Some (mkPiece t col))
      [Rook; Knight; Bishop; Queen; King; Bishop; Knight; Rook].

(** [DEFAULT_POSITION] *)
Definition start : Pos :=
  {| board := back_rank White ++ repeat (Some (mkPiece Pawn White)) 8
              ++ repeat None 32
              ++ repeat (Some (mkPiece Pawn Black)) 8 ++ back_rank Black;
     side := White;
     castle_wk := true; castle_wq := true; castle_bk := true; castle_bq := true;
     epSquare := None;
     halfMoves := 0;
     moveNumber := 1 |}.

(** Reading a board from the ranks of a FEN string, rank 8 first. *)
Definition read_cell (a : ascii) : list (option Piece) :=
  match a with
  | "P" => [Some (mkPiece Pawn White)] | "N" => [Some (mkPiece Knight White)]
  | "B" => [Some (mkPiece Bishop White)] | "R" => [Some (mkPiece Rook White)]
  | "Q" => [Some (mkPiece Queen White)] | "K" => [Some (mkPiece King White)]
  | "p" => [Some (mkPiece Pawn Black)] | "n" => [Some (mkPiece Knight Black)]
  | "b" => [Some (mkPiece Bishop Black)] | "r" => [Some (mkPiece Rook Black)]
  | "q" => [Some (mkPiece Queen Black)] | "k" => [Some (mkPiece King Black)]
  | "1" => repeat None 1 | "2" => repeat None 2 | "3" => repeat None 3
  | "4" => repeat None 4 | "5" => repeat None 5 | "6" => repeat None 6
  | "7" => repeat None 7 | "8" => repeat None 8
  | _ => []
  end%char.

Definition read_placement (rows : list string) : Board :=
  flat_map (fun row => flat_map read_cell (list_ascii_of_string row)) (rev rows).

(** The number of games of [depth] moves from a position, the usual
    check of a move generator. *)
Fixpoint perft (depth : nat) (p : Pos) : Z :=
  match depth with
  | O => 1
  | S k => fold_left (fun n mp => n + perft k (snd mp)) (legal_moves p) 0
  end.

(** Test positions with castling both ways, en-passant captures,
    promotions, pins and checks. *)
Definition kiwipete : Pos :=
  {| board := read_placement ["r3k2r"; "p1ppqpb1"; "bn2pnp1"; "3PN3";
                              "1p2P3"; "2N2Q1p"; "PPPBBPPP"; "R3K2R"]%string;
     side := White;
     castle_wk := true; castle_wq := true; castle_bk := true; castle_bq := true;
     epSquare := None; halfMoves := 0; moveNumber := 1 |}.

Definition rook_endgame : Pos :=
  {| board := read_placement ["8"; "2p5"; "3p4"; "KP5r";
                              "1R3p1k"; "8"; "4P1P1"; "8"]%string;
     side := White;
     castle_wk := false; castle_wq := false; castle_bk := false; castle_bq := false;
     epSquare := None; halfMoves := 0; moveNumber := 1 |}.

Definition promotion_race : Pos :=
  {| board := read_placement ["rnbq1k1r"; "pp1Pbppp"; "2p5"; "8";
                              "2B5"; "8"; "PPP1NnPP"; "RNBQK2R"]%string;
     side := White;
     castle_wk := true; castle_wq := true; castle_bk := false; castle_bq := false;
     epSquare := None; halfMoves := 1; moveNumber := 8 |}.

Definition engine : RulesEngine :=
  {| Position := Pos;
     DEFAULT_POSITION := start;
     fen_string := fen;
     pos_turn := side;
     pos_get := get;
     pos_moves := legal_moves;
     pos_inCheck := inCheck;
     pos_insufficientMaterial := insufficientMaterial;
     pos_halfMoves := halfMoves;
     pos_repeats := repeats |}.

End StandardChess.

(** Named squares and requests for the scenarios. *)
Module Sq.
Definition e1 : Square := (Fe, R1).
Definition e2 : Square := (Fe, R2).
Definition e3 : Square := (Fe, R3).
Definition e4 : Square := (Fe, R4).
Definition e5 : Square := (Fe, R5).
Definition e7 : Square := (Fe, R7).
Definition e8 : Square := (Fe, R8).
Definition d1 : Square := (Fd, R1).
Definition d5 : Square := (Fd, R5).
Definition d7 : Square := (Fd, R7).
Definition b8 : Square := (Fb, R8).
Definition c4 : Square := (Fc, R4).
Definition c6 : Square := (Fc, R6).
Definition f1 : Square := (Ff, R1).
Definition f3 : Square := (Ff, R3).
Definition f6 : Square := (Ff, R6).
Definition f7 : Square := (Ff, R7).
Definition g1 : Square := (Fg, R1).
Definition g8 : Square := (Fg, R8).
Definition h5 : Square := (Fh, R5).
End Sq.

(** The request [onSquareClick] builds: [{ from, to, promotion: 'q' }]. *)
Definition request (from to : Square) : MoveRequest :=
  {| req_from := from; req_to := to; req_promotion := Some Queen |}.

(** ** A game on one instance

    The requests made one after the other of a single [Chess] object,
    which is how chess.js keeps the history of a game; a request the
    engine rejects leaves the instance as it is. *)
Fixpoint replay {E : RulesEngine} (c : Chess.t E) (l : list MoveRequest) : Chess.t E :=
  match l with
  | [] => c
  | r :: rest =>
      match Chess.move c r with
      | Some (_, c') => replay c' rest
      | None => replay c rest
      end
  end.

(** ** The Feedback Classifier, in the words of the specification

    Game ended (checkmate or any draw condition) gives [end], else the
    side to move in check gives [check], else a capture gives [capture],
    else [move]; read on the rebuilt snapshot and the applied move. *)
Definition spec_classify (g : GameState) (m : Move) : SoundType :=
  if isCheckmate g || isDraw g then END
  else if isCheck g then CHECK
  else match move_captured m with
       | Some _ => CAPTURE
       | None => MOVE
       end.

(** ** The Capture Aggregator, in the words of the specification

    The captured kinds of the moves made by [mover], in the order of the
    history: the pieces lost by the other side. *)
Definition spec_captures_by (mover : PieceColor) (h : list Move) : list PieceType :=
  flat_map (fun m =>
              match move_captured m with
              | Some pc => if PieceColor_eqb (move_color m) mover then [pc] else []
              | None => []
              end) h.

(** A snapshot is terminal when it records checkmate or a draw. *)
Definition terminal (g : GameState) : bool := isCheckmate g || isDraw g.

(** The clicked square holds a piece of the side to move. *)
Definition friendly {E : RulesEngine} (c : Chess.t E) (sq : Square) : bool :=
  match Chess.get c sq with
  | Some piece => PieceColor_eqb (piece_color piece) (Chess.turn c)
  | None => false
  end.

(** The worlds the page can be in: the first render and what events
    lead to from there. *)
Inductive reachable {E : RulesEngine} : World E -> Prop :=
| reachable_initial : reachable initialWorld
| reachable_step (w : World E) (e : Event) :
    reachable w -> reachable (fst (step w e)).

(** What every reachable state satisfies: the stored instance has at most
    one move on its stack; the snapshot is the one [syncGameState] builds
    from it, or the literal of the first render over an untouched game;
    a square is selected only while the game is on. *)
Definition coherent {E : RulesEngine} (s : AppState E) : Prop :=
  (List.length (Chess._history (game s)) <= 1)%nat
  /\ (gameState s = syncGameState (game s)
      \/ (gameState s = gameState (initialState (E := E)) /\ game s = Chess.new))
  /\ (selectedSquare s <> None -> terminal (gameState s) = false).

(** ** Scenarios on the standard rules *)
Module Scenario.
Import Sq.

Definition E : RulesEngine := StandardChess.engine.

Definition fresh : AppState E := initialState.

(** 1. e4 e5 *)
Definition e4_e5 : list MoveRequest := [request e2 e4; request e7 e5].

(** 1. e4 d5 2. exd5 Nf6, as moves and as the clicks that play them *)
Definition capture_game : list MoveRequest :=
  [request e2 e4; request d7 d5; request e4 d5; request g8 f6].

Definition capture_clicks : list Event :=
  map SquareClick [e2; e4; d7; d5; e4; d5; g8; f6].

(** 1. e4 e5 2. Bc4 Nc6 3. Qh5 Nf6, after which 4. Qxf7 mates *)
Definition before_mate : list MoveRequest :=
  [request e2 e4; request e7 e5; request f1 c4; request b8 c6;
   request d1 h5; request g8 f6].

Definition mating_capture : MoveRequest := request h5 f7.

Definition at_mate_threat : AppState E := fst (fst (playMoves fresh before_mate)).

Abbreviation mated := (fst (fst (makeMove at_mate_threat mating_capture))).

(** 4. Qxf7#, as chess.js reports it *)
Definition qxf7 : Move :=
  {| move_color := White; move_from := h5; move_to := f7; move_piece := Queen;
     move_captured := Some Pawn; move_promotion := None |}.

Definition nf6 : Move :=
  {| move_color := Black; move_from := g8; move_to := f6; move_piece := Knight;
     move_captured := None; move_promotion := None |}.

Definition pawn_e5 : Move :=
  {| move_color := Black; move_from := e7; move_to := e5; move_piece := Pawn;
     move_captured := None; move_promotion := None |}.

(** e2 selected on the first render *)
Definition e2_selected : AppState E := fst (onSquareClick fresh e2).

(** The advisory request made on the first render, and the world in
    which 1. e4 has been played before its text arrives. *)
Definition first_request : AnalysisRequest :=
  {| request_fen := "rnbqkbnr/pppppppp/8/8/8/8/PPPPPPPP/RNBQKBNR w KQkq - 0 1";
     request_history := [] |}.

Definition moved_on : World E :=
  fst (run initialWorld [AnalyzeClick; SquareClick e2; SquareClick e4]).

(** The world after the click on e2, and the one after 4. Qxf7#. *)
Definition e2_world : World E := fst (step initialWorld (SquareClick e2)).

Definition mate_clicks : list Event :=
  map SquareClick [e2; e4; e7; e5; f1; c4; b8; c6; d1; h5; g8; f6; h5; f7].

Definition mate_world : World E := fst (run initialWorld mate_clicks).

(** Fifty moves without a pawn move or a capture: the knights go out
    and back twenty-five times, in two hundred clicks. *)
Definition knight_tour : list Event :=
  List.concat (repeat (map SquareClick [g1; f3; g8; f6; f3; g1; f6; g8]) 25).

Definition fifty_moves_on : World E := fst (run initialWorld knight_tour).

Definition nf3 : Move :=
  {| move_color := White; move_from := g1; move_to := f3; move_piece := Knight;
     move_captured := None; move_promotion := None |}.

(** 1. Nf3 Nf6 2. Ng1 Ng8 3. Nf3 Nf6 4. Ng1 Ng8: the starting position
    comes back after the fourth and after the eighth half-move, its third
    occurrence.  As requests and as the sixteen clicks that make them. *)
Definition knight_shuffle : list MoveRequest :=
  List.concat (repeat [request g1 f3; request g8 f6; request f3 g1; request f6 g8] 2).

Definition shuffle_clicks : list Event :=
  List.concat (repeat (map SquareClick [g1; f3; g8; f6; f3; g1; f6; g8]) 2).

Definition ng8 : Move :=
  {| move_color := Black; move_from := f6; move_to := g8; move_piece := Knight;
     move_captured := None; move_promotion := None |}.

End Scenario.

(** ** App.tsx: what the page shows

    The values the render computes from the state for each square and for
    the panels. *)
Section View.
Context {E : RulesEngine}.

(** [gameState.history[gameState.history.length - 1]], [undefined] on an
    empty history *)
Definition lastMove (g : GameState) : option Move :=
  match history g with
  | [] => None
  | _ => nth_error (history g) (List.length (history g) - 1)
  end.

(** [selectedSquare === squareId] *)
Definition isSelected (s : AppState E) (squareId : Square) : bool :=
  match selectedSquare s with
  | Some sel => Square_eqb sel squareId
  | None => false
  end.

(** [validMoves.includes(squareId)] *)
Definition isValidMove (s : AppState E) (squareId : Square) : bool :=
  existsb (fun v => Square_eqb v squareId) (validMoves s).

(** [lastMove && (lastMove.from === squareId || lastMove.to === squareId)] *)
Definition isLastMove (s : AppState E) (squareId : Square) : bool :=
  match lastMove (gameState s) with
  | Some m => Square_eqb (move_from m) squareId || Square_eqb (move_to m) squareId
  | None => false
  end.

(** The game-over overlay is rendered under
    [(gameState.isCheckmate || gameState.isDraw)]. *)
Definition gameOverShown (s : AppState E) : bool :=
  isCheckmate (gameState s) || isDraw (gameState s).

(** Its line of text. *)
Definition gameOverText (s : AppState E) : string :=
  if isCheckmate (gameState s)
  then ("Checkmate! "
        ++ match winner (gameState s) with
           | Some (WinnerColor White) => "White"
           | _ => "Black"
           end
        ++ " wins!")%string
  else "Draw!"%string.

(** The rows of the move list: [Math.ceil(history.length / 2)] rows, row
    [i] showing the moves at [i * 2] and [i * 2 + 1], the second one
    blank when there is none. *)
Definition historyRows (g : GameState) : list (option Move * option Move) :=
  map (fun i => (nth_error (history g) (i * 2), nth_error (history g) (i * 2 + 1)))
      (seq 0 ((List.length (history g) + 1) / 2)).

(** The coach panel is rendered under [analysis &&]: not for [null], not
    for the empty string. *)
Definition analysisShown (s : AppState E) : bool :=
  match analysis s with
  | Some text => negb (String.eqb text EmptyString)
  | None => false
  end.

(** The Analyze button: [disabled={isAnalyzing}] and its label. *)
Definition analyzeDisabled (s : AppState E) : bool := isAnalyzing s.

Definition analyzeLabel (s : AppState E) : string :=
  if isAnalyzing s then "Thinking..."%string else "Analyze"%string.

End View.

(** The colour of a square on the board:
    [(FILES.indexOf(file) + rank) % 2 === 0].  [FILES] comes from
    [constants.ts], which is not among the sources, and is a parameter
    here; [rank] is the number of the rank. *)
Fixpoint indexOf (FILES : list File) (file : File) : Z :=
  match FILES with
  | [] => (-1)%Z
  | f :: rest =>
      if File_eq_dec f file then 0%Z
      else match indexOf rest file with
           | (-1)%Z => (-1)%Z
           | i => (i + 1)%Z
           end
  end.

Definition rank_number (r : Rank) : Z := (StandardChess.rank_index r + 1)%Z.

Definition isDark (FILES : list File) (file : File) (rank : Rank) : bool :=
  (Z.rem (indexOf FILES file + rank_number rank) 2 =? 0)%Z.

(** ** services/geminiService.ts *)
Module GeminiService.

(** What [this.ai.models.generateContent] does with a request: it throws
    (or rejects), or it answers with a response whose [text] may be
    missing. *)
Inductive ApiOutcome : Type :=
| ApiThrows
| ApiResponse (text : option string).

(** The request: [model] and [contents]; the sampling temperature, a
    constant of the call, is left out. *)
Record GenerateContentRequest : Type := mkGenerateContentRequest {
  model : string;
  contents : string
}.

Definition nl : string := String (ascii_of_nat 10) EmptyString.

(** [history.join(', ')] *)
Definition join (l : list string) : string := String.concat ", " l.

(** The template literal of [analyzePosition]. *)
Definition prompt (fen : string) (history : list string) : string :=
  (nl ++ "        You are a World Class Chess Coach. "
   ++ nl ++ "        Analyze the following chess position (FEN): " ++ fen
   ++ nl ++ "        Previous moves: " ++ join history
   ++ nl ++ "        "
   ++ nl ++ "        Provide a brief analysis (max 3 sentences):"
   ++ nl ++ "        1. Who has the advantage?"
   ++ nl ++ "        2. What is the main strategic idea for the current player?"
   ++ nl ++ "        3. Suggest a candidate move."
   ++ nl ++ "      ")%string.

Definition unable : string := "I'm unable to analyze the position at this moment.".

Definition taking_a_break : string := "The AI coach is currently taking a break.".

(** [analyzePosition(fen, history)]: the text the promise resolves with
    and the lines written by [console.error]. *)
Definition analyzePosition (generateContent : GenerateContentRequest -> ApiOutcome)
    (fen : string) (history : list string) : string * list string :=
  let request :=
    {| model := "gemini-3-flash-preview"; contents := prompt fen history |} in
  match generateContent request with
  | ApiResponse (Some text) =>
      (* response.text || "..." *)
      (if String.eqb text EmptyString then unable else text, [])
  | ApiResponse None => (unable, [])
  | ApiThrows => (taking_a_break, ["Gemini Analysis Error:"%string])
  end.

End GeminiService.

(** ** services/audioService.ts *)
Module AudioService.

(** The values of [enum SoundType] *)
Definition value (t : SoundType) : string :=
  match t with
  | MOVE => "move"
  | CAPTURE => "capture"
  | CHECK => "check"
  | START => "start"
  | END => "end"
  end%string.

(** An [HTMLAudioElement], as far as the service touches it: its source,
    its [preload] attribute, how often [currentTime] has been set to 0
    and how often [play()] has been called on it. *)
Record HTMLAudioElement : Type := mkAudio {
  src : string;
  preload : string;
  rewinds : nat;
  plays : nat
}.

(** [new Audio(url)] *)
Definition Audio (url : string) : HTMLAudioElement :=
  {| src := url; preload := EmptyString; rewinds := 0; plays := 0 |}.

(** A [Map] with string keys: [get], and [set], which replaces the value
    of a key that is there and adds the key at the end otherwise. *)
Definition Map (A : Type) : Type := list (string * A).

Fixpoint get {A : Type} (k : string) (m : Map A) : option A :=
  match m with
  | [] => None
  | (k', v) :: rest => if String.eqb k' k then Some v else get k rest
  end.

Fixpoint set {A : Type} (k : string) (v : A) (m : Map A) : Map A :=
  match m with
  | [] => [(k, v)]
  | (k', v') :: rest =>
      if String.eqb k' k then (k, v) :: rest else (k', v') :: set k v rest
  end.

(** The constructor, over the entries of [SOUNDS] ([constants.ts] is not
    among the sources: the table is a parameter). *)
Definition new (SOUNDS : list (string * string)) : Map HTMLAudioElement :=
  fold_left (fun sounds entry =>
               let audio := Audio (snd entry) in
               let audio := {| src := src audio; preload := "auto";
                               rewinds := rewinds audio; plays := plays audio |} in
               set (fst entry) audio sounds)
            SOUNDS [].

(** [play(type)]; [fails] tells whether the promise of [audio.play()]
    rejects, in which case [console.warn] writes a line.  The result is
    the service afterwards and the lines written. *)
Definition play (fails : bool) (type : SoundType) (sounds : Map HTMLAudioElement)
    : Map HTMLAudioElement * list string :=
  match get (value type) sounds with
  | Some audio =>
      (set (value type)
           {| src := src audio; preload := preload audio;
              rewinds := S (rewinds audio); plays := S (plays audio) |} sounds,
       if fails then ["Audio playback failed:"%string] else [])
  | None => (sounds, [])
  end.

(** The entry of [SOUNDS] that [Object.entries] gives for a key: the last
    one, should the list repeat a key. *)
Definition entry (k : string) (SOUNDS : list (string * string)) : option string :=
  option_map snd (find (fun e => String.eqb (fst e) k) (rev SOUNDS)).

End AudioService.

(** [playSound(type)] of [App.tsx], on the audio service. *)
Definition playSound {E : RulesEngine} (s : AppState E) (fails : bool)
    (type : SoundType) (sounds : AudioService.Map AudioService.HTMLAudioElement)
    : AudioService.Map AudioService.HTMLAudioElement * list string :=
  if negb (isMuted s) then AudioService.play fails type sounds else (sounds, []).

(** Flipping [isMuted], as the mute button does. *)
Definition toggleMute {E : RulesEngine} (w : World E) : World E :=
  fst (step w MuteClick).

(** The promotions a click can ask for. *)
Definition queen_or_none (m : Move) : Prop :=
  move_promotion m = None \/ move_promotion m = Some Queen.

(** What holds of the selection in every reachable state. *)
Definition selection_sound {E : RulesEngine} (s : AppState E) : Prop :=
  match selectedSquare s with
  | Some sel =>
      friendly (game s) sel = true
      /\ validMoves s = map move_to (Chess.moves (game s) sel)
  | None => validMoves s = []
  end.

(** The moves on the stack of the stored instance promote to a queen or
    not at all. *)
Definition stack_promotes_to_queen {E : RulesEngine} (s : AppState E) : Prop :=
  Forall queen_or_none (map snd (Chess._history (game s))).

(** The moves shown in a row of the move list. *)
Definition row_moves (row : option Move * option Move) : list Move :=
  match row with
  | (Some a, Some b) => [a; b]
  | (Some a, None) => [a]
  | (None, Some b) => [b]
  | (None, None) => []
  end.

(** Further scenarios on the standard rules. *)
Module Cases.
Import Sq.

Definition E : RulesEngine := StandardChess.engine.

(** An interface that answers with an empty text. *)
Definition silent_api (r : GeminiService.GenerateContentRequest)
    : GeminiService.ApiOutcome := GeminiService.ApiResponse (Some EmptyString).

Definition SOUNDS : list (string * string) :=
  [("move", "/sounds/move.mp3"); ("capture", "/sounds/capture.mp3")]%string.

Definition analyzing : World E := fst (step initialWorld AnalyzeClick).

Definition after_e4 : World E :=
  fst (run initialWorld [SquareClick e2; SquareClick e4]).

Definition pawn_e4 : Move :=
  {| move_color := White; move_from := e2; move_to := e4; move_piece := Pawn;
     move_captured := None; move_promotion := None |}.

Abbreviation e4_played :=
  (fst (fst (makeMove Scenario.e2_selected (request e2 e4)))).

End Cases.

(** * Properties *)

Lemma Square_eqb_refl (x : Square) : Square_eqb x x = true.
Proof. unfold Square_eqb. destruct (Square_eq_dec x x); congruence. Qed.

Lemma Square_eqb_neq (x y : Square) : x <> y -> Square_eqb x y = false.
Proof. intros H. unfold Square_eqb. destruct (Square_eq_dec x y); congruence. Qed.

Lemma triple_eta {A B C : Type} (x : A * B * C) (b : B) (c : C) :
  snd (fst x) = b -> snd x = c -> x = (fst (fst x), b, c).
Proof. destruct x as [[a b0] c0]. simpl. intros -> ->. reflexivity. Qed.

(** ** The move generator against the known counts *)

Lemma perft_start :
  StandardChess.perft 1 StandardChess.start = 20%Z
  /\ StandardChess.perft 2 StandardChess.start = 400%Z.
Proof. vm_compute. split; reflexivity. Qed.

Lemma perft_kiwipete :
  StandardChess.perft 1 StandardChess.kiwipete = 48%Z
  /\ StandardChess.perft 2 StandardChess.kiwipete = 2039%Z.
Proof. vm_compute. split; reflexivity. Qed.

Lemma perft_rook_endgame :
  StandardChess.perft 3 StandardChess.rook_endgame = 2812%Z.
Proof. vm_compute. reflexivity. Qed.

Lemma perft_promotion_race :
  StandardChess.perft 2 StandardChess.promotion_race = 1486%Z.
Proof. vm_compute. reflexivity. Qed.

Lemma fen_start :
  StandardChess.fen StandardChess.start
  = "rnbqkbnr/pppppppp/8/8/8/8/PPPPPPPP/RNBQKBNR w KQkq - 0 1"%string.
Proof. vm_compute. reflexivity. Qed.

Lemma read_placement_start :
  StandardChess.read_placement
    ["rnbqkbnr"; "pppppppp"; "8"; "8"; "8"; "8"; "PPPPPPPP"; "RNBQKBNR"]%string
  = StandardChess.board StandardChess.start.
Proof. vm_compute. reflexivity. Qed.

Section ChessFacts.
Context {E : RulesEngine}.

(** [move] fails when it returns no move. *)
Lemma move_none (c : Chess.t E) (r : MoveRequest) :
  option_map fst (Chess.move c r) = None -> Chess.move c r = None.
Proof. destruct (Chess.move c r); [discriminate|reflexivity]. Qed.

(** An instance read from a FEN string has no history. *)
Lemma load_history (p : Position E) : Chess.history (Chess.load p) = [].
Proof. reflexivity. Qed.

Lemma load_fen_position (c : Chess.t E) :
  Chess.position (Chess.load (Chess.fen c)) = Chess.position c.
Proof. reflexivity. Qed.

(** A successful [move] pushes exactly the returned move. *)
Lemma move_history (c c' : Chess.t E) (r : MoveRequest) (m : Move) :
  Chess.move c r = Some (m, c') ->
  Chess.history c' = Chess.history c ++ [m].
Proof.
  unfold Chess.move. intros H.
  destruct (find _ _) as [[m0 p0]|]; [|discriminate].
  inversion H; subst. reflexivity.
Qed.

(** [move] returns one of the legal moves, asked for by the request. *)
Lemma move_legal (c c' : Chess.t E) (r : MoveRequest) (m : Move) :
  Chess.move c r = Some (m, c') ->
  In (m, Chess.position c') (Chess._moves c) /\ Chess.matches r m = true.
Proof.
  unfold Chess.move. intros H.
  destruct (find _ _) as [[m0 p0]|] eqn:F; [|discriminate].
  inversion H; subst. apply find_some in F. exact F.
Qed.

(** Without legal moves every request fails. *)
Lemma move_none_of_no_moves (c : Chess.t E) (r : MoveRequest) :
  Chess._moves c = [] -> Chess.move c r = None.
Proof. unfold Chess.move. intros ->. reflexivity. Qed.

(** [undo] on an instance read from a FEN string finds nothing to pop. *)
Lemma undo_load (p : Position E) :
  Chess.undo (Chess.load p) = (None, Chess.load p).
Proof. reflexivity. Qed.

(** [isDraw()] already covers stalemate and repetition. *)
Lemma isDraw_absorbs (c : Chess.t E) :
  Chess.isDraw c || Chess.isStalemate c || Chess.isThreefoldRepetition c
  = Chess.isDraw c.
Proof.
  unfold Chess.isDraw.
  destruct (Chess.isDrawByFiftyMoves c), (Chess.isStalemate c),
    (Chess.isInsufficientMaterial c), (Chess.isThreefoldRepetition c); reflexivity.
Qed.

(** An instance with at most one move on its stack has seen two
    positions: the repetition rule cannot fire. *)
Lemma no_repetition_on_short_history (c : Chess.t E) :
  (List.length (Chess._history c) <= 1)%nat ->
  Chess.isThreefoldRepetition c = false.
Proof.
  intros H. unfold Chess.isThreefoldRepetition, Chess._getPositionCount.
  apply Nat.leb_gt.
  eapply Nat.le_lt_trans; [apply filter_length_le|].
  unfold Chess._positions. simpl. rewrite length_map. lia.
Qed.

End ChessFacts.

Section ControllerFacts.
Context {E : RulesEngine}.

Implicit Types (s : AppState E) (c : Chess.t E) (mv : MoveRequest).

(** *** [syncGameState] *)

Lemma fold_count_capture (h : list Move) (acc : Captured) :
  fold_left count_capture h acc
  = {| captured_w := captured_w acc ++ spec_captures_by Black h;
       captured_b := captured_b acc ++ spec_captures_by White h |}.
Proof.
  revert acc. induction h as [|m h IH]; intros acc; simpl.
  - rewrite !app_nil_r. destruct acc; reflexivity.
  - rewrite IH. unfold count_capture, push_captured.
    destruct (move_captured m) as [pc|]; [|reflexivity].
    destruct (move_color m); simpl; rewrite <- ?app_assoc; reflexivity.
Qed.

(** The capture lists of a history: what Black took from White under
    [w], what White took from Black under [b]. *)
Lemma calculateCaptured_spec (h : list Move) :
  calculateCaptured h
  = {| captured_w := spec_captures_by Black h;
       captured_b := spec_captures_by White h |}.
Proof. unfold calculateCaptured. rewrite fold_count_capture. reflexivity. Qed.

(** The capture lists of a snapshot are a function of its own history. *)
Lemma snapshot_captured c :
  captured (syncGameState c) = calculateCaptured (history (syncGameState c)).
Proof. reflexivity. Qed.

Lemma snapshot_isDraw c : isDraw (syncGameState c) = Chess.isDraw c.
Proof. apply isDraw_absorbs. Qed.

(** Muting silences the audio service and nothing else. *)
Lemma audible_muted s (events : list SoundType) :
  audible (setIsMuted true s) events = []
  /\ audible (setIsMuted false s) events = events.
Proof. split; reflexivity. Qed.

(** *** [makeMove] *)

Lemma makeMove_rejected s mv :
  Chess.move (Chess.load (Chess.fen (game s))) mv = None ->
  makeMove s mv = (s, None, []).
Proof. unfold makeMove. intros ->. reflexivity. Qed.

Lemma makeMove_inv s mv s' m events :
  makeMove s mv = (s', Some m, events) ->
  exists c,
    Chess.move (Chess.load (Chess.fen (game s))) mv = Some (m, c)
    /\ s' = setAnalysis None (setValidMoves [] (setSelectedSquare None
              (setGameState (syncGameState c) (setGame c s))))
    /\ events =
         [if Chess.isCheckmate c || Chess.isDraw c then END
          else if Chess.isCheck c then CHECK
          else match move_captured m with Some _ => CAPTURE | None => MOVE end].
Proof.
  unfold makeMove.
  destruct (Chess.move _ mv) as [[m0 c]|]; [|discriminate].
  intros H. inversion H; subst. exists c. repeat split.
Qed.

Lemma makeMove_none_inv s mv s' events :
  makeMove s mv = (s', None, events) ->
  Chess.move (Chess.load (Chess.fen (game s))) mv = None /\ s' = s /\ events = [].
Proof.
  unfold makeMove.
  destruct (Chess.move _ mv) as [[m0 c]|]; [discriminate|].
  intros H. inversion H; subst. repeat split.
Qed.

(** After a successful move the stored instance, and so the snapshot,
    know that move only. *)
Lemma makeMove_history s mv s' m events :
  makeMove s mv = (s', Some m, events) ->
  Chess.history (game s') = [m]
  /\ history (gameState s') = [m]
  /\ captured (gameState s') = calculateCaptured [m].
Proof.
  intros H. apply makeMove_inv in H as (c & Hm & -> & _).
  apply move_history in Hm. rewrite load_history in Hm. simpl in Hm.
  simpl. unfold syncGameState; simpl. rewrite Hm. repeat split.
Qed.

(** A successful move clears the selection and the advisory text. *)
Lemma makeMove_clears s mv s' m events :
  makeMove s mv = (s', Some m, events) ->
  selectedSquare s' = None /\ validMoves s' = [] /\ analysis s' = None.
Proof.
  intros H. apply makeMove_inv in H as (c & _ & -> & _). repeat split.
Qed.

Lemma resetGame_clears s :
  let s' := fst (resetGame s) in
  selectedSquare s' = None /\ validMoves s' = [] /\ analysis s' = None.
Proof. repeat split. Qed.

(** [undoMove] reads its instance back from the FEN string: [undo]
    finds nothing to take back, the position stays where it was and the
    rebuilt snapshot has an empty history. *)
Lemma undoMove_keeps_position s :
  Chess.position (game (fst (undoMove s))) = Chess.position (game s)
  /\ history (gameState (fst (undoMove s))) = [].
Proof. split; reflexivity. Qed.

(** [undoMove] has no [setAnalysis]. *)
Lemma undoMove_keeps_analysis s :
  analysis (fst (undoMove s)) = analysis s.
Proof. reflexivity. Qed.

(** *** [onSquareClick] *)

Lemma click_terminal s sq :
  terminal (gameState s) = true -> onSquareClick s sq = (s, []).
Proof. unfold terminal, onSquareClick. intros ->. reflexivity. Qed.

Lemma selectPiece_friendly s sq :
  selectPiece s sq
  = if friendly (game s) sq
    then setValidMoves (map move_to (Chess.moves (game s) sq))
           (setSelectedSquare (Some sq) s)
    else setValidMoves [] (setSelectedSquare None s).
Proof.
  unfold selectPiece, friendly.
  destruct (Chess.get (game s) sq) as [pc|]; [|reflexivity].
  destruct (PieceColor_eqb _ _); reflexivity.
Qed.

Lemma click_idle s sq :
  terminal (gameState s) = false ->
  selectedSquare s = None ->
  onSquareClick s sq = (selectPiece s sq, []).
Proof. unfold terminal, onSquareClick. intros -> ->. reflexivity. Qed.

Lemma click_same s sq :
  terminal (gameState s) = false ->
  selectedSquare s = Some sq ->
  onSquareClick s sq = (setValidMoves [] (setSelectedSquare None s), []).
Proof.
  unfold terminal, onSquareClick. intros -> ->.
  rewrite Square_eqb_refl. reflexivity.
Qed.

Lemma click_accepted s sel sq s' m events :
  terminal (gameState s) = false ->
  selectedSquare s = Some sel -> sel <> sq ->
  makeMove s (request sel sq) = (s', Some m, events) ->
  onSquareClick s sq = (s', events).
Proof.
  unfold terminal, onSquareClick, request. intros -> -> Hne ->.
  rewrite (Square_eqb_neq _ _ Hne). reflexivity.
Qed.

Lemma click_rejected s sel sq :
  terminal (gameState s) = false ->
  selectedSquare s = Some sel -> sel <> sq ->
  Chess.move (Chess.load (Chess.fen (game s))) (request sel sq) = None ->
  onSquareClick s sq = (selectPiece s sq, []).
Proof.
  intros Ht Hs Hne Hm.
  pose proof (makeMove_rejected s _ Hm) as Hmk.
  unfold terminal in Ht. unfold onSquareClick.
  rewrite Ht, Hs, (Square_eqb_neq _ _ Hne).
  unfold request in Hmk. rewrite Hmk. reflexivity.
Qed.

End ControllerFacts.

(** ** Reachable states *)

Section Reachability.
Context {E : RulesEngine}.

Implicit Types (s : AppState E) (w : World E).

Lemma move_stack (c c' : Chess.t E) (r : MoveRequest) (m : Move) :
  Chess.move c r = Some (m, c') ->
  Chess._history c' = (Chess.position c, m) :: Chess._history c.
Proof.
  unfold Chess.move. intros H.
  destruct (find _ _) as [[m0 p0]|]; [|discriminate].
  inversion H; subst. reflexivity.
Qed.

Lemma coherent_initial : coherent (initialState (E := E)).
Proof.
  unfold coherent. simpl. split; [lia|]. split; [right; split; reflexivity|].
  intros H. contradiction H. reflexivity.
Qed.

Lemma coherent_makeMove s mv s' r events :
  coherent s -> makeMove s mv = (s', r, events) -> coherent s'.
Proof.
  intros Hs H. destruct r as [m|].
  - apply makeMove_inv in H as (c & Hm & -> & _).
    apply move_stack in Hm. unfold coherent. simpl. rewrite Hm. simpl.
    split; [lia|]. split; [left; reflexivity|].
    intros Hsel. contradiction Hsel. reflexivity.
  - apply makeMove_none_inv in H as (_ & -> & _). exact Hs.
Qed.

Lemma coherent_selectPiece s sq :
  coherent s -> terminal (gameState s) = false -> coherent (selectPiece s sq).
Proof.
  intros (Hh & Hg & _) Ht. rewrite selectPiece_friendly.
  destruct (friendly (game s) sq); unfold coherent; simpl; auto.
Qed.

Lemma coherent_deselect s :
  coherent s -> coherent (setValidMoves [] (setSelectedSquare None s)).
Proof.
  intros (Hh & Hg & _). unfold coherent; simpl.
  split; [exact Hh|]. split; [exact Hg|].
  intros Hsel. contradiction Hsel. reflexivity.
Qed.

Lemma coherent_click s sq : coherent s -> coherent (fst (onSquareClick s sq)).
Proof.
  intros Hs.
  destruct (terminal (gameState s)) eqn:Ht.
  - rewrite click_terminal by exact Ht. exact Hs.
  - destruct (selectedSquare s) as [sel|] eqn:Hsel.
    + destruct (Square_eq_dec sel sq) as [->|Hne].
      * rewrite click_same by assumption. apply coherent_deselect, Hs.
      * destruct (makeMove s (request sel sq)) as [[s' [m|]] events] eqn:Hm.
        -- rewrite (click_accepted s sel sq s' m events) by assumption.
           eapply coherent_makeMove; eassumption.
        -- apply makeMove_none_inv in Hm as (Hm & _ & _).
           rewrite (click_rejected s sel sq) by assumption.
           apply coherent_selectPiece; assumption.
    + rewrite click_idle by assumption. apply coherent_selectPiece; assumption.
Qed.

Lemma coherent_step w e : coherent (app w) -> coherent (app (fst (step w e))).
Proof.
  intros Hs. destruct e; simpl.
  - pose proof (coherent_click (app w) sq Hs) as H.
    destruct (onSquareClick (app w) sq); exact H.
  - unfold coherent; simpl. split; [lia|]. split; [left; reflexivity|].
    intros H. contradiction H. reflexivity.
  - unfold coherent; simpl. split; [lia|]. split; [left; reflexivity|].
    intros H. contradiction H. reflexivity.
  - destruct (isAnalyzing (app w)); exact Hs.
  - exact Hs.
  - destruct (pending w); exact Hs.
Qed.

Lemma reachable_coherent w : reachable w -> coherent (app w).
Proof.
  induction 1 as [|w e _ IH]; [apply coherent_initial|apply coherent_step, IH].
Qed.

Lemma reachable_run w (es : list Event) :
  reachable w -> reachable (fst (run w es)).
Proof.
  revert w. induction es as [|e es IH]; intros w Hw; simpl; [exact Hw|].
  pose proof (reachable_step w e Hw) as H1.
  destruct (step w e) as [w1 ev1]. specialize (IH w1 H1).
  destruct (run w1 es) as [w2 ev2]. exact IH.
Qed.

(** Whatever has been played, the history the page shows holds at most
    one move. *)
Lemma reachable_history_short w :
  reachable w -> (List.length (history (gameState (app w))) <= 1)%nat.
Proof.
  intros Hw. destruct (reachable_coherent w Hw) as (Hh & [Hg|[Hg _]] & _);
    rewrite Hg; simpl; [|lia].
  unfold Chess.history. rewrite length_rev, length_map. exact Hh.
Qed.

(** And so, whatever has been captured during the game, the two capture
    lists together hold at most one piece. *)
Lemma reachable_captured_short w :
  reachable w ->
  (List.length (captured_w (captured (gameState (app w))))
   + List.length (captured_b (captured (gameState (app w)))) <= 1)%nat.
Proof.
  intros Hw. destruct (reachable_coherent w Hw) as (Hh & [Hg|[Hg _]] & _);
    rewrite Hg; simpl; [|lia].
  unfold Chess.history.
  destruct (Chess._history (game (app w))) as [|[p m] [|x l]]; simpl in *;
    [lia| |lia].
  unfold calculateCaptured, count_capture, push_captured; simpl.
  destruct (move_captured m); [destruct (move_color m)|]; simpl; lia.
Qed.

(** A square is selected only while the game is on. *)
Lemma reachable_selected_playable w (sel : Square) :
  reachable w -> selectedSquare (app w) = Some sel ->
  terminal (gameState (app w)) = false.
Proof.
  intros Hw Hsel. destruct (reachable_coherent w Hw) as (_ & _ & H).
  apply H. rewrite Hsel. discriminate.
Qed.

(** The winner field of every reachable snapshot follows its flags. *)
Lemma reachable_winner w :
  reachable w ->
  let g := gameState (app w) in
  winner g
  = (if isCheckmate g
     then Some (WinnerColor (match turn g with White => Black | Black => White end))
     else if isDraw g then Some WinnerDraw else None).
Proof.
  intros Hw. destruct (reachable_coherent w Hw) as (_ & [Hg|[Hg _]] & _);
    cbv zeta; rewrite Hg; [|reflexivity].
  rewrite snapshot_isDraw. unfold syncGameState; simpl.
  destruct (Chess.isCheckmate (game (app w))), (Chess.isDraw (game (app w)));
    reflexivity.
Qed.

End Reachability.

(** * The claims *)

Section Claims.
Context {E : RulesEngine}.

Implicit Types (s : AppState E) (c : Chess.t E) (mv : MoveRequest).

(** C3. In every snapshot that [syncGameState] builds, [winner] is
    present exactly when [isCheckmate] or [isDraw] is set; under
    checkmate it is the side that is not to move, otherwise it is
    ['draw']; a colour and ['draw'] exclude each other. *)
Theorem winner_iff_game_over c :
  let g := syncGameState c in
  winner g
  = (if isCheckmate g
     then Some (WinnerColor (match turn g with White => Black | Black => White end))
     else if isDraw g then Some WinnerDraw else None)
  /\ (winner g <> None <-> isCheckmate g = true \/ isDraw g = true)
  /\ (forall col, winner g = Some (WinnerColor col) <-> isCheckmate g = true
                                                  /\ col <> turn g)
  /\ (winner g = Some WinnerDraw <-> isCheckmate g = false /\ isDraw g = true).
Proof.
  intros g.
  assert (Hw : winner g
               = (if isCheckmate g
                  then Some (WinnerColor
                               (match turn g with White => Black | Black => White end))
                  else if isDraw g then Some WinnerDraw else None)).
  { subst g. rewrite snapshot_isDraw. reflexivity. }
  split; [exact Hw|]. rewrite Hw. clear Hw.
  destruct (isCheckmate g), (isDraw g); (split; [|split]).
  all: try (intros col; destruct col, (turn g)).
  all: split; intros H; try discriminate; try (split; congruence);
    try (destruct H; congruence); try (left; reflexivity); try (right; reflexivity).
  all: try (destruct H; discriminate).
Qed.

(** The event of an accepted move, read off the engine.  [makeMove] asks
    the move of an instance loaded from the FEN string of the stored one;
    [c] is that instance after the move.  It holds that one move and no
    earlier position but the one it was loaded with, so its
    [isThreefoldRepetition] is false, and the [END] of a draw is the [END]
    of the fifty-move rule, of stalemate or of insufficient material.
    One event is emitted, the first that applies. *)
Lemma makeMove_sound s mv m c :
  Chess.move (Chess.load (Chess.fen (game s))) mv = Some (m, c) ->
  Chess.isThreefoldRepetition c = false
  /\ makeMove s mv
     = (setAnalysis None (setValidMoves [] (setSelectedSquare None
          (setGameState (syncGameState c) (setGame c s)))),
        Some m,
        [if Chess.isCheckmate c
            || (Chess.isDrawByFiftyMoves c || Chess.isStalemate c
                || Chess.isInsufficientMaterial c)
         then END
         else if Chess.isCheck c then CHECK
         else match move_captured m with Some _ => CAPTURE | None => MOVE end])
  /\ snd (makeMove s mv) = [spec_classify (syncGameState c) m].
Proof.
  intros Hm.
  assert (Hr : Chess.isThreefoldRepetition c = false).
  { apply no_repetition_on_short_history.
    rewrite (move_stack _ _ _ _ Hm). simpl. lia. }
  split; [exact Hr|].
  unfold makeMove. rewrite Hm. cbv zeta. simpl snd.
  unfold spec_classify. rewrite snapshot_isDraw.
  split; [|reflexivity].
  unfold Chess.isDraw. rewrite Hr, orb_false_r. reflexivity.
Qed.

(** The click with a selection, in any state in which the game is on. *)
Lemma click_with_selection s sel sq :
  terminal (gameState s) = false ->
  selectedSquare s = Some sel ->
  sel <> sq ->
  (forall vm, onSquareClick (setValidMoves vm s) sq = onSquareClick s sq)
  /\ match makeMove s (request sel sq) with
     | (s', Some _, events) => onSquareClick s sq = (s', events)
     | (_, None, _) => onSquareClick s sq = (selectPiece s sq, [])
     end.
Proof.
  intros Ht Hs Hne. split.
  - intros vm. unfold terminal in Ht. unfold onSquareClick. simpl.
    rewrite Ht, Hs, (Square_eqb_neq _ _ Hne).
    unfold makeMove, selectPiece. simpl.
    destruct (Chess.move _ _) as [[m c]|]; [reflexivity|].
    destruct (Chess.get (game s) sq) as [pc|]; [|reflexivity].
    destruct (PieceColor_eqb _ _); reflexivity.
  - destruct (makeMove s (request sel sq)) as [[s' [m|]] events] eqn:Hm.
    + eapply click_accepted; eassumption.
    + apply makeMove_none_inv in Hm as (Hm & _ & _).
      apply click_rejected with (sel := sel); assumption.
Qed.

(** C10. Wherever the page can be with a square selected, a click on any
    other square puts [{ from: selected, to: clicked, promotion: 'q' }]
    to the rules engine, on an instance loaded from the current position,
    and the answer of the engine decides the click.  When the engine
    plays the move, the click stores the instance the engine moved and
    the snapshot built from it, clears the selection, the stored
    destinations and the advisory text, and emits the one event of that
    move; when the engine rejects it, the click ends in its selection
    step and emits nothing.  The stored [validMoves] plays no part: with
    any other list in its place the click gives the same result. *)
Theorem click_attempts_move (w : World E) (sel sq : Square) :
  reachable w ->
  selectedSquare (app w) = Some sel ->
  sel <> sq ->
  (forall vm, onSquareClick (setValidMoves vm (app w)) sq = onSquareClick (app w) sq)
  /\ match Chess.move (Chess.load (Chess.fen (game (app w)))) (request sel sq) with
     | Some (m, c) =>
         onSquareClick (app w) sq
         = (setAnalysis None (setValidMoves [] (setSelectedSquare None
              (setGameState (syncGameState c) (setGame c (app w))))),
            [if Chess.isCheckmate c || Chess.isDraw c then END
             else if Chess.isCheck c then CHECK
             else match move_captured m with Some _ => CAPTURE | None => MOVE end])
     | None => onSquareClick (app w) sq = (selectPiece (app w) sq, [])
     end.
Proof.
  intros Hw Hs Hne.
  assert (Ht : terminal (gameState (app w)) = false)
    by (eapply reachable_selected_playable; eassumption).
  split; [exact (proj1 (click_with_selection _ _ _ Ht Hs Hne))|].
  destruct (Chess.move (Chess.load (Chess.fen (game (app w)))) (request sel sq))
    as [[m c]|] eqn:Hm.
  - apply click_accepted with (sel := sel) (m := m); try assumption.
    unfold makeMove. rewrite Hm. reflexivity.
  - apply click_rejected with (sel := sel); assumption.
Qed.

(** C6, as the code has it. When the engine rejects the request,
    [makeMove] returns [null], changes nothing and emits nothing; the
    click that made the attempt leaves the position, the snapshot and the
    advisory text as they were and emits nothing, and then ends in its
    selection step: the clicked square is selected when it holds a piece
    of the side to move, the selection is dropped otherwise. *)
Theorem rejected_attempt s mv :
  Chess.move (Chess.load (Chess.fen (game s))) mv = None ->
  makeMove s mv = (s, None, [])
  /\ (terminal (gameState s) = false ->
      selectedSquare s = Some (req_from mv) ->
      req_from mv <> req_to mv ->
      req_promotion mv = Some Queen ->
      let sq := req_to mv in
      let (s', events) := onSquareClick s sq in
      events = []
      /\ game s' = game s
      /\ gameState s' = gameState s
      /\ analysis s' = analysis s
      /\ selectedSquare s' = (if friendly (game s) sq then Some sq else None)
      /\ validMoves s' = (if friendly (game s) sq
                          then map move_to (Chess.moves (game s) sq) else [])).
Proof.
  intros Hm. split; [apply makeMove_rejected; exact Hm|].
  intros Ht Hs Hne Hq. cbv zeta.
  assert (Hmv : mv = request (req_from mv) (req_to mv)).
  { destruct mv as [f t pr]. simpl in Hq. subst pr. reflexivity. }
  rewrite Hmv in Hm.
  rewrite (click_rejected s (req_from mv) (req_to mv) Ht Hs Hne Hm).
  rewrite selectPiece_friendly. destruct (friendly (game s) (req_to mv)); repeat split.
Qed.

(** C8. Once the snapshot records checkmate or a draw, no move is
    accepted.  [makeMove] is called in one place, in [onSquareClick]
    behind the test of the snapshot, so the moves the page attempts are
    those of its clicks: every click on a square then leaves the whole
    state as it is and emits nothing, one click or any number of them,
    and whatever square is selected, so the attempt from the selected
    square to the clicked one is not made and nothing changes, also where
    the engine would play the move.  Where the side to move has no legal
    move (checkmate, stalemate) [makeMove] itself rejects every request
    without a change of state. *)
Theorem terminal_blocks_clicks (w : World E) :
  terminal (gameState (app w)) = true ->
  (forall sq, step w (SquareClick sq) = (w, []))
  /\ (forall sqs, run w (map SquareClick sqs) = (w, []))
  /\ (forall sel sq,
        onSquareClick (setSelectedSquare (Some sel) (app w)) sq
        = (setSelectedSquare (Some sel) (app w), []))
  /\ (Chess.isCheckmate (game (app w)) = true
      \/ Chess.isStalemate (game (app w)) = true ->
      forall mv, makeMove (app w) mv = (app w, None, [])).
Proof.
  intros Ht.
  assert (Hstep : forall sq, step w (SquareClick sq) = (w, [])).
  { intros sq. simpl. rewrite click_terminal by exact Ht. destruct w; reflexivity. }
  split; [exact Hstep|]. split; [|split].
  - induction sqs as [|sq sqs IH]; simpl; [reflexivity|].
    rewrite click_terminal by exact Ht.
    replace {| app := app w; pending := pending w |} with w by (destruct w; reflexivity).
    rewrite IH. reflexivity.
  - intros sel sq. apply click_terminal. exact Ht.
  - intros Hno mv. apply makeMove_rejected. apply move_none_of_no_moves.
    unfold Chess.isCheckmate, Chess.isStalemate in Hno.
    change (Chess._moves (Chess.load (Chess.fen (game (app w)))))
      with (Chess._moves (game (app w))).
    destruct (Chess._moves (game (app w))) as [|x l]; [reflexivity|].
    simpl in Hno. rewrite !andb_false_r in Hno. destruct Hno; discriminate.
Qed.

(** C2, as the code has it. [undoMove] calls the engine's [undo] on an
    instance that stands on the current position, rebuilds the snapshot
    from the instance it is left with, clears the selection and the
    stored destinations and emits exactly [MOVE], whatever the last move
    was; it has no test for an empty history and does all of this there
    too. *)
Theorem undoMove_effect s :
  let (s', events) := undoMove s in
  events = [MOVE]
  /\ (exists c0, Chess.position c0 = Chess.position (game s)
                 /\ game s' = snd (Chess.undo c0))
  /\ gameState s' = syncGameState (game s')
  /\ selectedSquare s' = None
  /\ validMoves s' = []
  /\ isAnalyzing s' = isAnalyzing s
  /\ isMuted s' = isMuted s.
Proof.
  unfold undoMove. simpl. split; [reflexivity|]. split; [|repeat split].
  exists (Chess.load (Chess.fen (game s))). split; reflexivity.
Qed.

End Claims.

Section AdvisoryClaims.
Context {E : RulesEngine}.

(** C9, as the code has it. The text of an advisory request is applied
    when it arrives, whatever has happened to the position since the
    request was made: [analysis] becomes that text, [isAnalyzing] becomes
    false, nothing else changes and no event is emitted. *)
Theorem advisory_applied_on_arrival (w : World E) (req : AnalysisRequest) (text : string) :
  pending w = Some req ->
  let (w', events) := step w (AnalysisArrives text) in
  analysis (app w') = Some text
  /\ isAnalyzing (app w') = false
  /\ pending w' = None
  /\ game (app w') = game (app w)
  /\ gameState (app w') = gameState (app w)
  /\ selectedSquare (app w') = selectedSquare (app w)
  /\ validMoves (app w') = validMoves (app w)
  /\ events = [].
Proof. intros H. simpl. rewrite H. repeat split. Qed.

End AdvisoryClaims.

(** * The claims on the board *)

Section OnTheBoard.
Import Sq Scenario.

(** C1, on the code. After 1. e4 d5 2. exd5 Nf6, played by [makeMove] or
    by the eight clicks, the applied moves hold one capture, a black
    pawn taken by White, while the rebuilt snapshot, whose history is the
    last move alone, shows no captured piece. *)
Theorem captured_forgets_earlier_moves :
  let '(s, applied, _) := playMoves fresh capture_game in
  map move_captured applied = [None; None; Some Pawn; None]
  /\ map move_color applied = [White; Black; White; Black]
  /\ calculateCaptured applied = {| captured_w := []; captured_b := [Pawn] |}
  /\ history (gameState s) = [nf6]
  /\ captured (gameState s) = {| captured_w := []; captured_b := [] |}
  /\ gameState (app (fst (run (initialWorld (E := E)) capture_clicks))) = gameState s.
Proof. vm_compute. repeat split. Qed.

(** C5, on the code. After e2-e4 and e7-e5 from the starting position
    both moves have been applied, no piece is captured, White is to move
    and is not in check, and the history of the snapshot holds the second
    move only: its length is 1. *)
Theorem e4_e5_snapshot :
  let '(s, applied, events) := playMoves fresh e4_e5 in
  List.length applied = 2%nat
  /\ events = [MOVE; MOVE]
  /\ history (gameState s) = [pawn_e5]
  /\ List.length (history (gameState s)) = 1%nat
  /\ captured (gameState s) = {| captured_w := []; captured_b := [] |}
  /\ turn (gameState s) = White
  /\ isCheck (gameState s) = false.
Proof. vm_compute. repeat split. Qed.

(** C7, on the code. A move, an advisory text for the position reached,
    then undo: the text is still there, where [makeMove] and [resetGame]
    would have cleared it. *)
Theorem undo_keeps_advisory_text :
  let w := fst (run (initialWorld (E := E))
                  [SquareClick e2; SquareClick e4; AnalyzeClick;
                   AnalysisArrives "Black should answer in the centre."]) in
  analysis (app w) = Some "Black should answer in the centre."%string
  /\ analysis (app (fst (step w UndoClick)))
     = Some "Black should answer in the centre."%string
  /\ analysis (app (fst (step w NewGameClick))) = None
  /\ analysis (fst (fst (makeMove (app w) (request e7 e5)))) = None.
Proof. vm_compute. repeat split. Qed.

(** C2 as stated fails: with e2 selected on the first render and nothing
    to undo, [undoMove] emits [MOVE], drops the selection and replaces
    the snapshot. *)
Lemma undo_on_empty_history_acts :
  Chess.history (game e2_selected) = []
  /\ history (gameState e2_selected) = []
  /\ selectedSquare e2_selected = Some e2
  /\ validMoves e2_selected = [e3; e4]
  /\ snd (undoMove e2_selected) = [MOVE]
  /\ selectedSquare (fst (undoMove e2_selected)) = None
  /\ validMoves (fst (undoMove e2_selected)) = []
  /\ fen (gameState e2_selected) = "start"%string
  /\ fen (gameState (fst (undoMove e2_selected)))
     = "rnbqkbnr/pppppppp/8/8/8/8/PPPPPPPP/RNBQKBNR w KQkq - 0 1"%string.
Proof. vm_compute. repeat split. Qed.

(** What the undo button does after 1. e4: the pawn stays on e4, the
    history shown is empty, the sound of a move is played. *)
Lemma undo_does_not_take_back :
  let w := fst (run (initialWorld (E := E)) [SquareClick e2; SquareClick e4]) in
  fen (gameState (app w))
  = "rnbqkbnr/pppppppp/8/8/4P3/8/PPPP1PPP/RNBQKBNR b KQkq - 0 1"%string
  /\ List.length (history (gameState (app w))) = 1%nat
  /\ fen (gameState (app (fst (step w UndoClick))))
     = "rnbqkbnr/pppppppp/8/8/4P3/8/PPPP1PPP/RNBQKBNR b KQkq - 0 1"%string
  /\ history (gameState (app (fst (step w UndoClick)))) = []
  /\ snd (step w UndoClick) = [MOVE].
Proof. vm_compute. repeat split. Qed.

(** C4, on the code. The knights go out and back twice.  Played on one
    [Chess] object, as chess.js keeps a game, the eight half-moves end
    on the third occurrence of the starting position: the instance holds
    the eight moves and reports a threefold repetition and a draw, so the
    eighth half-move ends the game.  Played on the page, by the sixteen
    clicks or by the eight calls of [makeMove], each half-move emits
    [MOVE], the eighth too, and the snapshot of the same position records
    no draw and no winner: its history is the last move alone. *)
Theorem repetition_draw_sounds_like_a_move :
  let one := replay (Chess.new (E := E)) knight_shuffle in
  let played := run (initialWorld (E := E)) shuffle_clicks in
  let g := gameState (app (fst played)) in
  List.length (Chess.history one) = 8%nat
  /\ Chess.fenString one
     = "rnbqkbnr/pppppppp/8/8/8/8/PPPPPPPP/RNBQKBNR w KQkq - 8 5"%string
  /\ Chess.isThreefoldRepetition one = true
  /\ Chess.isDraw one = true
  /\ Chess.isCheckmate one = false
  /\ snd played = [MOVE; MOVE; MOVE; MOVE; MOVE; MOVE; MOVE; MOVE]
  /\ snd (playMoves fresh knight_shuffle)
     = [MOVE; MOVE; MOVE; MOVE; MOVE; MOVE; MOVE; MOVE]
  /\ List.length (snd (fst (playMoves fresh knight_shuffle))) = 8%nat
  /\ fen g = "rnbqkbnr/pppppppp/8/8/8/8/PPPPPPPP/RNBQKBNR w KQkq - 8 5"%string
  /\ history g = [ng8]
  /\ isDraw g = false
  /\ winner g = None.
Proof. vm_compute. repeat split. Qed.

(** The classifier where the position decides: after 1. e4 e5 2. Bc4 Nc6
    3. Qh5 Nf6 the capture 4. Qxf7 mates, and the one event is [END]. *)
Lemma mating_capture_sounds_end :
  makeMove at_mate_threat mating_capture = (mated, Some qxf7, [END])
  /\ move_captured qxf7 = Some Pawn
  /\ isCheckmate (gameState mated) = true
  /\ isCheck (gameState mated) = true.
Proof.
  split; [apply triple_eta; vm_compute; reflexivity|].
  split; [reflexivity|]. split; vm_compute; reflexivity.
Qed.

Lemma click_attempts_move_witness :
  reachable e2_world
  /\ selectedSquare (app e2_world) = Some e2
  /\ e2 <> e4
  /\ (forall vm, onSquareClick (setValidMoves vm (app e2_world)) e4
                 = onSquareClick (app e2_world) e4)
  /\ (exists c,
        Chess.move (Chess.load (Chess.fen (game (app e2_world)))) (request e2 e4)
        = Some (Cases.pawn_e4, c)
        /\ game (fst (onSquareClick (app e2_world) e4)) = c
        /\ gameState (fst (onSquareClick (app e2_world) e4)) = syncGameState c
        /\ selectedSquare (fst (onSquareClick (app e2_world) e4)) = None)
  /\ snd (onSquareClick (setValidMoves [] (app e2_world)) e4) = [MOVE].
Proof.
  assert (Hw : reachable e2_world) by (apply reachable_step, reachable_initial).
  assert (Hs : selectedSquare (app e2_world) = Some e2) by (vm_compute; reflexivity).
  assert (Hne : e2 <> e4) by discriminate.
  assert (Hv : option_map fst
                 (Chess.move (Chess.load (Chess.fen (game (app e2_world)))) (request e2 e4))
               = Some Cases.pawn_e4) by (vm_compute; reflexivity).
  split; [exact Hw|]. split; [exact Hs|]. split; [exact Hne|].
  destruct (click_attempts_move e2_world e2 e4 Hw Hs Hne) as [Hany Hclick].
  split; [exact Hany|]. split; [|vm_compute; reflexivity].
  destruct (Chess.move (Chess.load (Chess.fen (game (app e2_world)))) (request e2 e4))
    as [[m c]|]; [|discriminate Hv].
  exists c. injection Hv as ->. rewrite Hclick.
  split; [reflexivity|]. split; [reflexivity|]. split; reflexivity.
Defined.

(** C6 as stated fails: with e2 selected, a click on e5 asks for e2-e5,
    which the engine rejects, and the selection and its destinations are
    gone. *)
Lemma rejected_click_drops_selection :
  option_map fst (Chess.move (Chess.load (Chess.fen (game e2_selected))) (request e2 e5))
  = None
  /\ selectedSquare e2_selected = Some e2
  /\ validMoves e2_selected = [e3; e4]
  /\ selectedSquare (fst (onSquareClick e2_selected e5)) = None
  /\ validMoves (fst (onSquareClick e2_selected e5)) = [].
Proof. vm_compute. repeat split. Qed.

Lemma rejected_attempt_witness :
  Chess.move (Chess.load (Chess.fen (game e2_selected))) (request e2 e5) = None
  /\ makeMove e2_selected (request e2 e5) = (e2_selected, None, [])
  /\ game (fst (onSquareClick e2_selected e5)) = game e2_selected
  /\ snd (onSquareClick e2_selected e5) = [].
Proof.
  assert (Hm : Chess.move (Chess.load (Chess.fen (game e2_selected))) (request e2 e5)
               = None) by (apply move_none; vm_compute; reflexivity).
  assert (Ht : terminal (gameState e2_selected) = false) by (vm_compute; reflexivity).
  assert (Hs : selectedSquare e2_selected = Some e2) by (vm_compute; reflexivity).
  assert (Hne : e2 <> e5) by discriminate.
  destruct (rejected_attempt e2_selected (request e2 e5) Hm) as [Hmk Hclick].
  specialize (Hclick Ht Hs Hne eq_refl). cbv zeta in Hclick.
  change (req_to (request e2 e5)) with e5 in Hclick.
  destruct (onSquareClick e2_selected e5) as [s' events].
  destruct Hclick as (Hev & Hg & _).
  split; [exact Hm|]. split; [exact Hmk|]. split; [exact Hg|exact Hev].
Defined.

(** After 4. Qxf7# no click does anything and [makeMove] rejects what it
    is asked.  After the knights have gone out and back twenty-five times
    the snapshot records a draw by the fifty-move rule; the engine would
    still play Nf3, and the clicks on g1 and f3 change nothing, nor does
    the click on f3 with g1 selected. *)
Lemma terminal_blocks_clicks_witness :
  (terminal (gameState (app mate_world)) = true
   /\ Chess.isCheckmate (game (app mate_world)) = true
   /\ step mate_world (SquareClick e8) = (mate_world, [])
   /\ run mate_world (map SquareClick [e8; e7; e1]) = (mate_world, [])
   /\ makeMove (app mate_world) (request e8 e7) = (app mate_world, None, []))
  /\ (terminal (gameState (app fifty_moves_on)) = true
      /\ option_map fst
           (Chess.move (Chess.load (Chess.fen (game (app fifty_moves_on))))
              (request g1 f3))
         = Some nf3
      /\ run fifty_moves_on (map SquareClick [g1; f3]) = (fifty_moves_on, [])
      /\ onSquareClick (setSelectedSquare (Some g1) (app fifty_moves_on)) f3
         = (setSelectedSquare (Some g1) (app fifty_moves_on), [])).
Proof.
  split.
  - assert (Ht : terminal (gameState (app mate_world)) = true)
      by (vm_compute; reflexivity).
    assert (Hc : Chess.isCheckmate (game (app mate_world)) = true)
      by (vm_compute; reflexivity).
    destruct (terminal_blocks_clicks mate_world Ht) as (Hclick & Hrun & _ & Hmove).
    split; [exact Ht|]. split; [exact Hc|].
    split; [apply Hclick|]. split; [apply (Hrun [e8; e7; e1])|].
    apply Hmove; left; exact Hc.
  - assert (Ht : terminal (gameState (app fifty_moves_on)) = true)
      by (vm_compute; reflexivity).
    assert (Hv : option_map fst
                   (Chess.move (Chess.load (Chess.fen (game (app fifty_moves_on))))
                      (request g1 f3))
                 = Some nf3) by (vm_compute; reflexivity).
    destruct (terminal_blocks_clicks fifty_moves_on Ht) as (_ & Hrun & Hsel & _).
    split; [exact Ht|]. split; [exact Hv|].
    split; [apply (Hrun [g1; f3])|apply Hsel].
Defined.

(** C9 as stated fails: the request is made on the first render, 1. e4
    is played, the text arrives and is shown over the new position. *)
Lemma stale_advisory_is_shown :
  pending moved_on = Some first_request
  /\ Chess.fenString (game (app moved_on))
     = "rnbqkbnr/pppppppp/8/8/4P3/8/PPPP1PPP/RNBQKBNR b KQkq - 0 1"%string
  /\ analysis (app moved_on) = None
  /\ analysis (app (fst (step moved_on (AnalysisArrives "Open with the king's pawn."))))
     = Some "Open with the king's pawn."%string.
Proof. vm_compute. repeat split. Qed.

Lemma advisory_applied_on_arrival_witness :
  pending moved_on = Some first_request
  /\ analysis (app (fst (step moved_on (AnalysisArrives "Open with the king's pawn."))))
     = Some "Open with the king's pawn."%string.
Proof.
  assert (Hp : pending moved_on = Some first_request) by (vm_compute; reflexivity).
  split; [exact Hp|].
  pose proof (advisory_applied_on_arrival moved_on first_request
                "Open with the king's pawn." Hp) as H.
  destruct (step moved_on (AnalysisArrives "Open with the king's pawn.")) as [w' events].
  exact (proj1 H).
Defined.

End OnTheBoard.

(** * More of the code *)


Lemma Square_eqb_true (x y : Square) : Square_eqb x y = true <-> x = y.
Proof. unfold Square_eqb. destruct (Square_eq_dec x y); split; congruence. Qed.

Section MoreControllerFacts.
Context {E : RulesEngine}.

Implicit Types (s : AppState E) (w : World E) (mv : MoveRequest).

(** A click leaves the two flags of the side panel alone. *)
Lemma click_keeps_flags s sq :
  isMuted (fst (onSquareClick s sq)) = isMuted s
  /\ isAnalyzing (fst (onSquareClick s sq)) = isAnalyzing s.
Proof.
  unfold onSquareClick.
  destruct (isCheckmate (gameState s) || isDraw (gameState s)); [split; reflexivity|].
  destruct (selectedSquare s) as [sel|].
  - destruct (Square_eqb sel sq); [split; reflexivity|].
    unfold makeMove. destruct (Chess.move _ _) as [[m c]|]; simpl.
    + split; reflexivity.
    + rewrite selectPiece_friendly. destruct (friendly _ _); split; reflexivity.
  - simpl. rewrite selectPiece_friendly. destruct (friendly _ _); split; reflexivity.
Qed.

(** What [Chess.matches] asks of the move it lets through. *)
Lemma matches_inv mv (m : Move) :
  Chess.matches mv m = true ->
  move_from m = req_from mv /\ move_to m = req_to mv
  /\ (move_promotion m = None \/ move_promotion m = req_promotion mv).
Proof.
  unfold Chess.matches. intros H.
  apply andb_prop in H as [H Hp]. apply andb_prop in H as [Hf Ht].
  apply Square_eqb_true in Hf. apply Square_eqb_true in Ht.
  split; [congruence|]. split; [congruence|].
  destruct (move_promotion m) as [pr|]; [|left; reflexivity].
  destruct (req_promotion mv) as [pr'|]; [|discriminate].
  right. unfold PieceType_eqb in Hp.
  destruct (PieceType_eq_dec pr' pr); congruence.
Qed.

Lemma selection_sound_selectPiece s sq : selection_sound (selectPiece s sq).
Proof.
  rewrite selectPiece_friendly. destruct (friendly (game s) sq) eqn:Hf;
    unfold selection_sound; simpl; [split; [exact Hf|reflexivity]|reflexivity].
Qed.

Lemma selection_sound_click s sq :
  selection_sound s -> selection_sound (fst (onSquareClick s sq)).
Proof.
  intros Hs. destruct (terminal (gameState s)) eqn:Ht.
  - rewrite click_terminal by exact Ht. exact Hs.
  - destruct (selectedSquare s) as [sel|] eqn:Hsel.
    + destruct (Square_eq_dec sel sq) as [->|Hne].
      * rewrite click_same by assumption. reflexivity.
      * destruct (makeMove s (request sel sq)) as [[s' [m|]] events] eqn:Hm.
        -- rewrite (click_accepted s sel sq s' m events) by assumption.
           apply makeMove_clears in Hm as (H1 & H2 & _).
           unfold selection_sound. simpl. rewrite H1. exact H2.
        -- apply makeMove_none_inv in Hm as (Hm & _ & _).
           rewrite (click_rejected s sel sq) by assumption.
           apply selection_sound_selectPiece.
    + rewrite click_idle by assumption. apply selection_sound_selectPiece.
Qed.

Lemma selection_sound_step w e :
  selection_sound (app w) -> selection_sound (app (fst (step w e))).
Proof.
  intros Hs. destruct e; simpl.
  - pose proof (selection_sound_click (app w) sq Hs) as H.
    destruct (onSquareClick (app w) sq); exact H.
  - reflexivity.
  - reflexivity.
  - destruct (isAnalyzing (app w)); exact Hs.
  - exact Hs.
  - destruct (pending w); exact Hs.
Qed.

Lemma reachable_selection_sound w : reachable w -> selection_sound (app w).
Proof.
  induction 1 as [|w e _ IH]; [reflexivity|apply selection_sound_step, IH].
Qed.

Lemma isValidMove_spec s sq :
  isValidMove s sq = true <-> In sq (validMoves s).
Proof.
  unfold isValidMove. rewrite existsb_exists. split.
  - intros (v & Hin & Hv). apply Square_eqb_true in Hv. subst. exact Hin.
  - intros Hin. exists sq. split; [exact Hin|apply Square_eqb_refl].
Qed.

(** X1. In every state the page can reach, the square drawn as selected
    holds a piece of the side to move, and the squares drawn as
    destinations are exactly those a legal move of the stored game
    reaches from the selected square; with nothing selected none is
    drawn. *)
Theorem highlights_are_legal_destinations w :
  reachable w ->
  (forall sq, isSelected (app w) sq = true -> friendly (game (app w)) sq = true)
  /\ (forall sq,
         isValidMove (app w) sq = true
         <-> exists sel m p,
               selectedSquare (app w) = Some sel
               /\ In (m, p) (Chess._moves (game (app w)))
               /\ move_from m = sel /\ move_to m = sq).
Proof.
  intros Hw. pose proof (reachable_selection_sound w Hw) as Hs.
  unfold selection_sound in Hs. unfold isSelected.
  destruct (selectedSquare (app w)) as [sel|].
  - destruct Hs as [Hf Hv]. split.
    + intros sq Hsq. apply Square_eqb_true in Hsq. subst. exact Hf.
    + intros sq. rewrite isValidMove_spec, Hv, in_map_iff. unfold Chess.moves. split.
      * intros (m & Hto & Hin). apply filter_In in Hin as [Hin Hfrom].
        apply in_map_iff in Hin as ([m0 p] & Hm0 & Hin). simpl in Hm0. subst m0.
        apply Square_eqb_true in Hfrom. exists sel, m, p. auto.
      * intros (sel' & m & p & Hsel & Hin & Hfrom & Hto).
        injection Hsel as Heq. rewrite <- Heq in Hfrom.
        exists m. split; [exact Hto|]. apply filter_In. split.
        -- apply in_map_iff. exists (m, p). split; [reflexivity|exact Hin].
        -- apply Square_eqb_true. exact Hfrom.
  - split; [discriminate|]. intros sq. unfold isValidMove. rewrite Hs. simpl.
    split; [discriminate|]. intros (sel & _ & _ & H & _). discriminate.
Qed.

(** X2. Where the game is on and nothing is selected, a click on a piece
    of the side to move selects it, and a second click on it brings the
    page back to the very state it was in, without a sound. *)
Theorem select_then_deselect w sq :
  reachable w ->
  terminal (gameState (app w)) = false ->
  selectedSquare (app w) = None ->
  friendly (game (app w)) sq = true ->
  selectedSquare (app (fst (step w (SquareClick sq)))) = Some sq
  /\ run w [SquareClick sq; SquareClick sq] = (w, []).
Proof.
  intros Hw Ht Hsel Hf.
  pose proof (reachable_selection_sound w Hw) as Hs.
  unfold selection_sound in Hs. rewrite Hsel in Hs.
  simpl. rewrite (click_idle (app w) sq Ht Hsel).
  rewrite selectPiece_friendly, Hf. simpl. split; [reflexivity|].
  rewrite click_same; [|exact Ht|reflexivity].
  destruct w as [s p]. destruct s. simpl in *. subst. reflexivity.
Qed.

(** X3. With nothing selected, a click on an empty square or on a piece
    of the side that is not to move changes nothing at all. *)
Theorem idle_click_elsewhere w sq :
  reachable w ->
  selectedSquare (app w) = None ->
  friendly (game (app w)) sq = false ->
  step w (SquareClick sq) = (w, []).
Proof.
  intros Hw Hsel Hf.
  pose proof (reachable_selection_sound w Hw) as Hs.
  unfold selection_sound in Hs. rewrite Hsel in Hs. simpl.
  destruct (terminal (gameState (app w))) eqn:Ht.
  - rewrite click_terminal by exact Ht. destruct w; reflexivity.
  - rewrite (click_idle (app w) sq Ht Hsel), selectPiece_friendly, Hf.
    destruct w as [s p]. destruct s. simpl in *. subst. reflexivity.
Qed.

End MoreControllerFacts.


Section MoreControllerFacts2.
Context {E : RulesEngine}.

Implicit Types (s : AppState E) (w : World E) (mv : MoveRequest).

(** X4. [makeMove] applies a legal move of the current position that
    goes from the requested origin to the requested destination and
    promotes, if it does, to the piece asked for; it returns [null],
    leaving the state alone, exactly when no legal move fits the
    request. *)
Theorem makeMove_applies_request s mv :
  (forall s' m events,
      makeMove s mv = (s', Some m, events) ->
      In (m, Chess.position (game s')) (Chess._moves (game s))
      /\ move_from m = req_from mv
      /\ move_to m = req_to mv
      /\ (move_promotion m = None \/ move_promotion m = req_promotion mv))
  /\ (makeMove s mv = (s, None, [])
      <-> forall m p, In (m, p) (Chess._moves (game s)) -> Chess.matches mv m = false).
Proof.
  split.
  - intros s' m events H. apply makeMove_inv in H as (c & Hm & -> & _).
    apply move_legal in Hm as [Hin Hmatch]. simpl.
    split; [exact Hin|]. apply matches_inv. exact Hmatch.
  - split.
    + intros H m p Hin.
      destruct (Chess.matches mv m) eqn:Hmatch; [|reflexivity].
      unfold makeMove, Chess.move in H.
      change (Chess._moves (Chess.load (Chess.fen (game s))))
        with (Chess._moves (game s)) in H.
      destruct (find _ (Chess._moves (game s))) as [[m0 p0]|] eqn:F;
        [discriminate|].
      apply find_none with (x := (m, p)) in F; [|exact Hin].
      simpl in F. congruence.
    + intros H. apply makeMove_rejected. unfold Chess.move.
      change (Chess._moves (Chess.load (Chess.fen (game s))))
        with (Chess._moves (game s)).
      destruct (find _ (Chess._moves (game s))) as [[m0 p0]|] eqn:F;
        [|reflexivity].
      apply find_some in F as [Hin Hmatch]. simpl in Hmatch.
      rewrite (H m0 p0 Hin) in Hmatch. discriminate.
Qed.

Lemma stack_click s sq :
  stack_promotes_to_queen s -> stack_promotes_to_queen (fst (onSquareClick s sq)).
Proof.
  intros Hs. destruct (terminal (gameState s)) eqn:Ht.
  - rewrite click_terminal by exact Ht. exact Hs.
  - destruct (selectedSquare s) as [sel|] eqn:Hsel.
    + destruct (Square_eq_dec sel sq) as [->|Hne].
      * rewrite click_same by assumption. exact Hs.
      * destruct (makeMove s (request sel sq)) as [[s' [m|]] events] eqn:Hm.
        -- rewrite (click_accepted s sel sq s' m events) by assumption.
           apply makeMove_inv in Hm as (c & Hm & -> & _).
           pose proof (move_stack _ _ _ _ Hm) as Hst.
           apply move_legal in Hm as [_ Hmatch].
           apply matches_inv in Hmatch as (_ & _ & Hp).
           unfold stack_promotes_to_queen. simpl. rewrite Hst. simpl.
           constructor; [exact Hp|constructor].
        -- apply makeMove_none_inv in Hm as (Hm & _ & _).
           rewrite (click_rejected s sel sq) by assumption.
           rewrite selectPiece_friendly. destruct (friendly _ _); exact Hs.
    + rewrite click_idle by assumption.
      rewrite selectPiece_friendly. destruct (friendly _ _); exact Hs.
Qed.

Lemma stack_step w e :
  stack_promotes_to_queen (app w) -> stack_promotes_to_queen (app (fst (step w e))).
Proof.
  intros Hs. destruct e; simpl.
  - pose proof (stack_click (app w) sq Hs) as H.
    destruct (onSquareClick (app w) sq); exact H.
  - constructor.
  - constructor.
  - destruct (isAnalyzing (app w)); exact Hs.
  - exact Hs.
  - destruct (pending w); exact Hs.
Qed.

(** X5. Every move in a history the page can show promotes to a queen or
    not at all: no click plays an under-promotion. *)
Theorem clicks_promote_to_queen w :
  reachable w -> Forall queen_or_none (history (gameState (app w))).
Proof.
  intros Hw.
  assert (Hst : stack_promotes_to_queen (app w)).
  { induction Hw as [|w e _ IH]; [constructor|apply stack_step, IH]. }
  destruct (reachable_coherent w Hw) as (_ & [Hg|[Hg _]] & _); rewrite Hg; simpl.
  - unfold Chess.history. apply Forall_rev. exact Hst.
  - constructor.
Qed.

(** X6. A click never touches [isMuted] or [isAnalyzing].  A click without
    a sound leaves the game, the snapshot and the advisory text as they
    were; a click with a sound is one accepted [makeMove] from the selected
    square to the clicked one, with exactly one sound, and it leaves
    nothing selected and no advisory text. *)
Theorem click_effects s sq :
  let (s', events) := onSquareClick s sq in
  isMuted s' = isMuted s
  /\ isAnalyzing s' = isAnalyzing s
  /\ (events = [] ->
      game s' = game s /\ gameState s' = gameState s /\ analysis s' = analysis s)
  /\ (events <> [] ->
      exists sel m,
        selectedSquare s = Some sel
        /\ makeMove s (request sel sq) = (s', Some m, events)
        /\ List.length events = 1%nat
        /\ selectedSquare s' = None
        /\ analysis s' = None).
Proof.
  pose proof (click_keeps_flags s sq) as [Hmu Han].
  assert (Hpick : game (selectPiece s sq) = game s
                  /\ gameState (selectPiece s sq) = gameState s
                  /\ analysis (selectPiece s sq) = analysis s).
  { rewrite selectPiece_friendly. destruct (friendly _ _); repeat split. }
  destruct (terminal (gameState s)) eqn:Ht.
  { rewrite click_terminal by exact Ht. repeat split; congruence. }
  destruct (selectedSquare s) as [sel|] eqn:Hs.
  - destruct (Square_eq_dec sel sq) as [->|Hne].
    + rewrite click_same by assumption. repeat split; congruence.
    + destruct (makeMove s (request sel sq)) as [[s' [m|]] events] eqn:Hm.
      * rewrite (click_accepted s sel sq s' m events Ht Hs Hne Hm) in *.
        simpl in Hmu, Han. split; [exact Hmu|]. split; [exact Han|].
        pose proof Hm as Hm'.
        apply makeMove_inv in Hm' as (c & _ & Hs' & Hev).
        split; [intros He; rewrite He in Hev; discriminate|].
        intros _. exists sel, m. split; [reflexivity|]. split; [exact Hm|].
        rewrite Hev, Hs'. repeat split.
      * apply makeMove_none_inv in Hm as (Hm & _ & _).
        rewrite (click_rejected s sel sq Ht Hs Hne Hm) in *. simpl in Hmu, Han.
        split; [exact Hmu|]. split; [exact Han|]. split; [intros _; exact Hpick|].
        intros H. contradiction H. reflexivity.
  - rewrite (click_idle s sq Ht Hs) in *. simpl in Hmu, Han.
    split; [exact Hmu|]. split; [exact Han|]. split; [intros _; exact Hpick|].
    intros H. contradiction H. reflexivity.
Qed.

(** X7. In every reachable state [isAnalyzing] is set exactly while an
    advisory request is in flight: the button reads "Thinking..." and is
    disabled then and only then. *)
Theorem thinking_while_pending w :
  reachable w ->
  (isAnalyzing (app w) = true <-> pending w <> None)
  /\ (analyzeLabel (app w) = "Thinking..."%string <-> pending w <> None)
  /\ (analyzeDisabled (app w) = false <-> pending w = None).
Proof.
  intros Hw.
  assert (H : isAnalyzing (app w) = true <-> pending w <> None).
  { induction Hw as [|w e _ IH].
    - simpl. split; [discriminate|intros H; contradiction H; reflexivity].
    - destruct e; simpl.
      + pose proof (click_keeps_flags (app w) sq) as [_ Han].
        destruct (onSquareClick (app w) sq) as [s' ev]. simpl in *.
        rewrite Han. exact IH.
      + exact IH.
      + exact IH.
      + destruct (isAnalyzing (app w)) eqn:Ha; simpl.
        * rewrite Ha. exact IH.
        * split; [discriminate|reflexivity].
      + exact IH.
      + destruct (pending w) eqn:Hp; simpl.
        * split; [discriminate|intros H; contradiction H; reflexivity].
        * rewrite Hp. exact IH. }
  split; [exact H|]. unfold analyzeLabel, analyzeDisabled.
  destruct (isAnalyzing (app w)).
  - split; [split; [intros _; apply H; reflexivity|reflexivity]|].
    split; [discriminate|]. intros Hp. apply H in Hp; [contradiction|reflexivity].
  - assert (Hp : pending w = None).
    { destruct (pending w) eqn:Hp; [|reflexivity].
      assert (Hx : false = true) by (apply H; discriminate). discriminate. }
    split; [split; [discriminate|intros Hn; contradiction]|].
    split; [intros _; exact Hp|reflexivity].
Qed.

End MoreControllerFacts2.


Section MoreControllerFacts3.
Context {E : RulesEngine}.

Implicit Types (s : AppState E) (w : World E) (mv : MoveRequest).

Lemma click_muted s sq (b : bool) :
  onSquareClick (setIsMuted b s) sq
  = (setIsMuted b (fst (onSquareClick s sq)), snd (onSquareClick s sq)).
Proof.
  unfold onSquareClick. simpl.
  destruct (isCheckmate (gameState s) || isDraw (gameState s)); [reflexivity|].
  destruct (selectedSquare s) as [sel|].
  - destruct (Square_eqb sel sq); [reflexivity|].
    unfold makeMove. simpl.
    destruct (Chess.move _ _) as [[m c]|]; [reflexivity|].
    unfold selectPiece. simpl.
    destruct (Chess.get (game s) sq) as [pc|]; [|reflexivity].
    destruct (PieceColor_eqb _ _); reflexivity.
  - unfold selectPiece. simpl.
    destruct (Chess.get (game s) sq) as [pc|]; [|reflexivity].
    destruct (PieceColor_eqb _ _); reflexivity.
Qed.

(** X8. Muting changes nothing but the sound: any other event does to a
    page with the mute flag flipped what it does to the page as it is,
    and emits the same feedback events; flipping twice is flipping not at
    all; and [playSound] reaches the audio service only when not
    muted. *)
Theorem mute_changes_only_sound w e (fails : bool) (type : SoundType)
    (sounds : AudioService.Map AudioService.HTMLAudioElement) :
  (e <> MuteClick ->
   step (toggleMute w) e = (toggleMute (fst (step w e)), snd (step w e)))
  /\ toggleMute (toggleMute w) = w
  /\ (isMuted (app w) = true -> playSound (app w) fails type sounds = (sounds, []))
  /\ (isMuted (app w) = false ->
      playSound (app w) fails type sounds = AudioService.play fails type sounds).
Proof.
  split; [|split; [|split]].
  - intros He. unfold toggleMute. destruct e; simpl.
    + rewrite click_muted.
      pose proof (click_keeps_flags (app w) sq) as [Hmu _].
      destruct (onSquareClick (app w) sq) as [s' ev]. simpl in *.
      rewrite Hmu. reflexivity.
    + reflexivity.
    + reflexivity.
    + destruct (isAnalyzing (app w)); reflexivity.
    + contradiction He. reflexivity.
    + destruct (pending w) eqn:Hp; simpl; rewrite ?Hp; reflexivity.
  - unfold toggleMute. simpl. rewrite negb_involutive.
    destruct w as [s p]. destruct s. reflexivity.
  - intros H. unfold playSound. rewrite H. reflexivity.
  - intros H. unfold playSound. rewrite H. reflexivity.
Qed.

Lemma lastMove_singleton (g : GameState) (m : Move) :
  history g = [m] -> lastMove g = Some m.
Proof. unfold lastMove. intros ->. reflexivity. Qed.

(** X9. After an accepted move the last-move mark is on the square the
    move was asked from and the square it was asked to, and nowhere else;
    after an undo or a new game no square carries it. *)
Theorem last_move_highlight s mv s' m events :
  makeMove s mv = (s', Some m, events) ->
  (forall x, isLastMove s' x = Square_eqb (req_from mv) x || Square_eqb (req_to mv) x)
  /\ (forall x, isLastMove (fst (undoMove s')) x = false)
  /\ (forall x, isLastMove (fst (resetGame s')) x = false).
Proof.
  intros H. split; [|split; intros x; reflexivity].
  intros x. pose proof (makeMove_history _ _ _ _ _ H) as (_ & Hh & _).
  apply makeMove_inv in H as (c & Hm & _ & _).
  apply move_legal in Hm as [_ Hmatch].
  apply matches_inv in Hmatch as (Hf & Ht & _).
  unfold isLastMove. rewrite (lastMove_singleton _ _ Hh), Hf, Ht. reflexivity.
Qed.

(** X10. In every reachable state the game-over overlay is shown exactly
    when the snapshot has a winner, and its text names that winner:
    White (when Black, to move, is mated), Black, or a draw. *)
Theorem overlay_names_the_winner w :
  reachable w ->
  (gameOverShown (app w) = true <-> winner (gameState (app w)) <> None)
  /\ gameOverText (app w)
     = match winner (gameState (app w)) with
       | Some (WinnerColor White) => "Checkmate! White wins!"
       | Some (WinnerColor Black) => "Checkmate! Black wins!"
       | Some WinnerDraw => "Draw!"
       | None => "Draw!"
       end%string
  /\ (winner (gameState (app w)) = Some (WinnerColor White)
      <-> isCheckmate (gameState (app w)) = true /\ turn (gameState (app w)) = Black).
Proof.
  intros Hw. pose proof (reachable_winner w Hw) as Hwin. cbv zeta in Hwin.
  unfold gameOverShown, gameOverText. rewrite Hwin.
  destruct (isCheckmate (gameState (app w))), (isDraw (gameState (app w))),
    (turn (gameState (app w))); simpl;
    (split; [|split; [reflexivity|]]);
    split; intros H; try discriminate; try reflexivity; try congruence;
    try (split; reflexivity); try (destruct H; discriminate).
Qed.

End MoreControllerFacts3.

(** The rows of a move list, on the list itself. *)
Lemma rows_step {A : Type} (a b : A) (t : list A) :
  map (fun i => (nth_error (a :: b :: t) (i * 2), nth_error (a :: b :: t) (i * 2 + 1)))
      (seq 0 ((List.length (a :: b :: t) + 1) / 2))
  = (Some a, Some b)
    :: map (fun i => (nth_error t (i * 2), nth_error t (i * 2 + 1)))
           (seq 0 ((List.length t + 1) / 2)).
Proof.
  replace ((List.length (a :: b :: t) + 1) / 2)%nat
    with (S ((List.length t + 1) / 2)).
  - cbn [seq map]. f_equal. rewrite <- seq_shift, map_map.
    apply map_ext. intros i. reflexivity.
  - simpl List.length.
    replace (S (S (List.length t)) + 1)%nat with (List.length t + 1 + 1 * 2)%nat by lia.
    rewrite Nat.div_add by lia. lia.
Qed.

Lemma list_ind2 {A : Type} (P : list A -> Prop) :
  P [] -> (forall a, P [a]) -> (forall a b t, P t -> P (a :: b :: t)) ->
  forall l, P l.
Proof.
  intros H0 H1 H2.
  assert (H : forall l, P l /\ forall a, P (a :: l)).
  { induction l as [|x l [IH1 IH2]]; [split; [exact H0|exact H1]|].
    split; [apply IH2|]. intros a. apply H2. exact IH1. }
  intros l. apply H.
Qed.

(** X11. The rows of the move list hold the moves of the history, each
    once and in order, two to a row; there are [ceil(n / 2)] rows and
    none starts with a blank. *)
Theorem historyRows_cover (g : GameState) :
  flat_map row_moves (historyRows g) = history g
  /\ List.length (historyRows g) = ((List.length (history g) + 1) / 2)%nat
  /\ Forall (fun row => fst row <> None) (historyRows g).
Proof.
  unfold historyRows. split; [|split].
  - induction (history g) as [| a | a b t IH] using list_ind2.
    + reflexivity.
    + reflexivity.
    + rewrite rows_step. cbn [flat_map row_moves]. rewrite IH. reflexivity.
  - rewrite length_map, length_seq. reflexivity.
  - induction (history g) as [| a | a b t IH] using list_ind2.
    + constructor.
    + cbn. constructor; [discriminate|constructor].
    + rewrite rows_step. constructor; [discriminate|exact IH].
Qed.

(** The index of an element of a list without repetition. *)
Lemma indexOf_nonneg (FILES : list File) (f : File) :
  In f FILES -> (0 <= indexOf FILES f)%Z.
Proof.
  induction FILES as [|x l IH]; intros Hin; [contradiction|]. simpl.
  destruct (File_eq_dec x f) as [|Hne]; [lia|].
  destruct Hin as [|Hin]; [contradiction|]. specialize (IH Hin).
  destruct (indexOf l f) eqn:Hi; try lia.
Qed.

Lemma indexOf_nth (FILES : list File) (i : nat) (f : File) :
  NoDup FILES -> nth_error FILES i = Some f -> indexOf FILES f = Z.of_nat i.
Proof.
  revert i. induction FILES as [|x l IH]; intros i Hnd Hn.
  - destruct i; discriminate.
  - inversion Hnd as [|? ? Hx Hl]; subst. destruct i as [|i]; simpl in *.
    + inversion Hn; subst. destruct (File_eq_dec f f); congruence.
    + destruct (File_eq_dec x f) as [->|Hne].
      * exfalso. apply Hx. eapply nth_error_In. exact Hn.
      * rewrite (IH i Hl Hn). destruct (Z.of_nat i) eqn:Hz; lia.
Qed.

Lemma rank_number_pos (r : Rank) : (1 <= rank_number r <= 8)%Z.
Proof. destruct r; cbv; split; discriminate. Qed.

Lemma dark_is_even (FILES : list File) (f : File) (r : Rank) :
  In f FILES -> isDark FILES f r = Z.even (indexOf FILES f + rank_number r).
Proof.
  intros Hin. unfold isDark.
  pose proof (indexOf_nonneg FILES f Hin). pose proof (rank_number_pos r).
  rewrite Z.rem_mod_nonneg by lia. rewrite Zmod_even.
  destruct (Z.even _); reflexivity.
Qed.

(** X12. Whatever the order of [FILES], as long as it repeats no file:
    two squares side by side in a rank, and two squares one above the
    other in a file, are of different colours. *)
Theorem board_is_chequered (FILES : list File) :
  NoDup FILES ->
  (forall i f1 f2 r,
      nth_error FILES i = Some f1 -> nth_error FILES (S i) = Some f2 ->
      isDark FILES f2 r = negb (isDark FILES f1 r))
  /\ (forall f r1 r2,
         In f FILES -> rank_number r2 = (rank_number r1 + 1)%Z ->
         isDark FILES f r2 = negb (isDark FILES f r1)).
Proof.
  intros Hnd. split.
  - intros i f1 f2 r H1 H2.
    rewrite !dark_is_even by (eapply nth_error_In; eassumption).
    rewrite (indexOf_nth _ _ _ Hnd H1), (indexOf_nth _ _ _ Hnd H2).
    replace (Z.of_nat (S i) + rank_number r)%Z
      with (Z.succ (Z.of_nat i + rank_number r)) by lia.
    rewrite Z.even_succ, <- Z.negb_even. reflexivity.
  - intros f r1 r2 Hin Hr. rewrite !dark_is_even by exact Hin. rewrite Hr.
    replace (indexOf FILES f + (rank_number r1 + 1))%Z
      with (Z.succ (indexOf FILES f + rank_number r1)) by lia.
    rewrite Z.even_succ, <- Z.negb_even. reflexivity.
Qed.


(** X13. [analyzePosition] always resolves, and with a text that is not
    empty: the text of the response when there is one, the first
    placeholder when the response has no text or an empty one, the second
    placeholder, after a line on the console, when the call throws. *)
Theorem analyzePosition_answers
    (generateContent : GeminiService.GenerateContentRequest -> GeminiService.ApiOutcome)
    (fen : string) (history : list string) :
  let outcome :=
    generateContent
      {| GeminiService.model := "gemini-3-flash-preview";
         GeminiService.contents := GeminiService.prompt fen history |} in
  let (text, console) := GeminiService.analyzePosition generateContent fen history in
  text <> EmptyString
  /\ (outcome = GeminiService.ApiThrows ->
      text = GeminiService.taking_a_break /\ console = ["Gemini Analysis Error:"%string])
  /\ (outcome = GeminiService.ApiResponse None
      \/ outcome = GeminiService.ApiResponse (Some EmptyString) ->
      text = GeminiService.unable /\ console = [])
  /\ (forall t, outcome = GeminiService.ApiResponse (Some t) -> t <> EmptyString ->
      text = t /\ console = []).
Proof.
  cbv zeta. unfold GeminiService.analyzePosition.
  destruct (generateContent _) as [|[t|]].
  - split; [discriminate|]. split; [split; reflexivity|].
    split; [intros [H|H]; discriminate|]. intros t H; discriminate.
  - destruct (String.eqb t EmptyString) eqn:Ht.
    + apply String.eqb_eq in Ht. subst t.
      split; [discriminate|]. split; [discriminate|].
      split; [split; reflexivity|]. intros t H Hn. inversion H; subst. contradiction.
    + apply String.eqb_neq in Ht.
      split; [exact Ht|]. split; [discriminate|].
      split; [intros [H|H]; [discriminate|inversion H; subst; contradiction]|].
      intros t0 H _. inversion H; subst. split; reflexivity.
  - split; [discriminate|]. split; [discriminate|].
    split; [split; reflexivity|]. intros t H; discriminate.
Qed.

Section Coach.
Context {E : RulesEngine}.

(** X14. When the text of [analyzePosition] arrives for the request in
    flight, whatever the interface did, the coach panel is shown with
    that text and the button is back to "Analyze", enabled. *)
Theorem coach_always_answers (w : World E) (req : AnalysisRequest)
    (generateContent : GeminiService.GenerateContentRequest -> GeminiService.ApiOutcome)
    (sans : list string) :
  pending w = Some req ->
  let text := fst (GeminiService.analyzePosition generateContent (request_fen req) sans) in
  let w' := fst (step w (AnalysisArrives text)) in
  analysisShown (app w') = true
  /\ analysis (app w') = Some text
  /\ analyzeLabel (app w') = "Analyze"%string
  /\ analyzeDisabled (app w') = false
  /\ pending w' = None.
Proof.
  intros Hp. cbv zeta. simpl. rewrite Hp. simpl.
  pose proof (analyzePosition_answers generateContent (request_fen req) sans) as H.
  cbv zeta in H.
  destruct (GeminiService.analyzePosition generateContent (request_fen req) sans)
    as [text console].
  destruct H as [Hne _]. simpl. unfold analysisShown. simpl.
  apply String.eqb_neq in Hne. rewrite Hne. repeat split.
Qed.

End Coach.

Module AudioFacts.
Import AudioService.

Lemma get_set_same {A : Type} (k : string) (v : A) (m : Map A) :
  get k (set k v m) = Some v.
Proof.
  induction m as [|[k' v'] m IH]; simpl.
  - rewrite String.eqb_refl. reflexivity.
  - destruct (String.eqb k' k) eqn:Hk; simpl.
    + rewrite String.eqb_refl. reflexivity.
    + rewrite Hk. exact IH.
Qed.

Lemma get_set_other {A : Type} (k k0 : string) (v : A) (m : Map A) :
  k0 <> k -> get k0 (set k v m) = get k0 m.
Proof.
  intros Hne. induction m as [|[k' v'] m IH]; simpl.
  - destruct (String.eqb k k0) eqn:Hk; [|reflexivity].
    apply String.eqb_eq in Hk. congruence.
  - destruct (String.eqb k' k) eqn:Hk; simpl.
    + apply String.eqb_eq in Hk. subst k'.
      destruct (String.eqb k k0) eqn:Hk0; [|reflexivity].
      apply String.eqb_eq in Hk0. congruence.
    + destruct (String.eqb k' k0); [reflexivity|exact IH].
Qed.

Lemma keys_set_present {A : Type} (k : string) (v a : A) (m : Map A) :
  get k m = Some a -> map fst (set k v m) = map fst m.
Proof.
  induction m as [|[k' v'] m IH]; simpl; [discriminate|].
  destruct (String.eqb k' k) eqn:Hk; simpl.
  - apply String.eqb_eq in Hk. subst. reflexivity.
  - intros H. rewrite (IH H). reflexivity.
Qed.

End AudioFacts.

(** X15. [play] on a type without a registered sound changes nothing and
    writes nothing.  On a registered one it rewinds and plays that
    element only: every other key keeps its element, the keys stay as
    they are, and a line is written exactly when the playback fails. *)
Theorem play_touches_one_sound (fails : bool) (type : SoundType)
    (sounds : AudioService.Map AudioService.HTMLAudioElement) :
  let (sounds', console) := AudioService.play fails type sounds in
  (AudioService.get (AudioService.value type) sounds = None ->
   sounds' = sounds /\ console = [])
  /\ (forall audio,
         AudioService.get (AudioService.value type) sounds = Some audio ->
         AudioService.get (AudioService.value type) sounds'
         = Some {| AudioService.src := AudioService.src audio;
                   AudioService.preload := AudioService.preload audio;
                   AudioService.rewinds := S (AudioService.rewinds audio);
                   AudioService.plays := S (AudioService.plays audio) |}
         /\ (console = [] <-> fails = false))
  /\ (forall k, k <> AudioService.value type ->
                AudioService.get k sounds' = AudioService.get k sounds)
  /\ map fst sounds' = map fst sounds.
Proof.
  unfold AudioService.play.
  destruct (AudioService.get (AudioService.value type) sounds) as [audio|] eqn:Hg.
  - split; [discriminate|]. split; [|split].
    + intros a Ha. inversion Ha; subst a.
      split; [apply AudioFacts.get_set_same|].
      destruct fails; split; intros H; (reflexivity || discriminate).
    + intros k Hk. apply AudioFacts.get_set_other. exact Hk.
    + eapply AudioFacts.keys_set_present. exact Hg.
  - split; [intros _; split; reflexivity|]. split; [discriminate|].
    split; reflexivity.
Qed.

Lemma find_append {A : Type} (f : A -> bool) (l1 l2 : list A) :
  find f (l1 ++ l2) = match find f l1 with Some x => Some x | None => find f l2 end.
Proof.
  induction l1 as [|x l IH]; simpl; [reflexivity|].
  destruct (f x); [reflexivity|exact IH].
Qed.

Lemma new_fold (SOUNDS : list (string * string)) (k : string)
    (m : AudioService.Map AudioService.HTMLAudioElement) :
  AudioService.get k
    (fold_left (fun sounds entry =>
                  let audio := AudioService.Audio (snd entry) in
                  let audio :=
                    {| AudioService.src := AudioService.src audio;
                       AudioService.preload := "auto";
                       AudioService.rewinds := AudioService.rewinds audio;
                       AudioService.plays := AudioService.plays audio |} in
                  AudioService.set (fst entry) audio sounds) SOUNDS m)
  = match find (fun e => String.eqb (fst e) k) (rev SOUNDS) with
    | Some e => Some {| AudioService.src := snd e; AudioService.preload := "auto";
                        AudioService.rewinds := 0; AudioService.plays := 0 |}
    | None => AudioService.get k m
    end.
Proof.
  revert m. induction SOUNDS as [|e l IH]; intros m; [reflexivity|].
  cbn [fold_left rev]. rewrite IH. rewrite find_append.
  destruct (find _ (rev l)) as [x|]; [reflexivity|].
  cbn [find]. destruct (String.eqb (fst e) k) eqn:Hk.
  - apply String.eqb_eq in Hk. subst k. apply AudioFacts.get_set_same.
  - apply String.eqb_neq in Hk. apply AudioFacts.get_set_other. congruence.
Qed.

(** X16. After construction the service holds, for each key of [SOUNDS],
    a fresh element on the url of that key with [preload] set to "auto",
    and nothing for any other key; playing a type whose value is not a
    key of [SOUNDS] does nothing. *)
Theorem new_registers_the_table (SOUNDS : list (string * string)) :
  (forall k,
      AudioService.get k (AudioService.new SOUNDS)
      = option_map (fun url => {| AudioService.src := url;
                                  AudioService.preload := "auto";
                                  AudioService.rewinds := 0;
                                  AudioService.plays := 0 |})
                   (AudioService.entry k SOUNDS))
  /\ (forall fails type,
         AudioService.entry (AudioService.value type) SOUNDS = None ->
         AudioService.play fails type (AudioService.new SOUNDS)
         = (AudioService.new SOUNDS, [])).
Proof.
  assert (H : forall k,
             AudioService.get k (AudioService.new SOUNDS)
             = option_map (fun url => {| AudioService.src := url;
                                         AudioService.preload := "auto";
                                         AudioService.rewinds := 0;
                                         AudioService.plays := 0 |})
                          (AudioService.entry k SOUNDS)).
  { intros k. unfold AudioService.new, AudioService.entry. rewrite new_fold.
    destruct (find _ (rev SOUNDS)); reflexivity. }
  split; [exact H|]. intros fails type He.
  unfold AudioService.play. rewrite H, He. reflexivity.
Qed.

Section MoveList.
Context {E : RulesEngine}.

(** X17. In every state the page can reach, the move list has at most one
    row with at most one move in it, and the two rows of captured pieces
    hold at most one piece between them: each move is played on an
    instance read back from a FEN string, which knows no earlier move. *)
Theorem move_list_holds_one_move (w : World E) :
  reachable w ->
  (List.length (history (gameState (app w))) <= 1)%nat
  /\ (List.length (historyRows (gameState (app w))) <= 1)%nat
  /\ (List.length (captured_w (captured (gameState (app w))))
      + List.length (captured_b (captured (gameState (app w)))) <= 1)%nat.
Proof.
  intros Hw. pose proof (reachable_history_short w Hw) as Hh.
  split; [exact Hh|]. split; [|apply reachable_captured_short; exact Hw].
  unfold historyRows. rewrite length_map, length_seq.
  destruct (history (gameState (app w))) as [|a [|b t]]; simpl in *;
    [cbv; lia|cbv; lia|lia].
Qed.

End MoveList.

(** * More of the code, on the board *)

Section MoreOnTheBoard.
Import Sq Scenario Cases.

Lemma highlights_are_legal_destinations_witness :
  reachable e2_world
  /\ isSelected (app e2_world) e2 = true
  /\ friendly (game (app e2_world)) e2 = true
  /\ isValidMove (app e2_world) e4 = true.
Proof.
  assert (Hw : reachable e2_world) by (apply reachable_step, reachable_initial).
  assert (Hsel : isSelected (app e2_world) e2 = true) by (vm_compute; reflexivity).
  split; [exact Hw|]. split; [exact Hsel|]. split.
  - exact (proj1 (highlights_are_legal_destinations e2_world Hw) e2 Hsel).
  - vm_compute; reflexivity.
Defined.

Lemma select_then_deselect_witness :
  reachable (initialWorld (E := Scenario.E))
  /\ friendly (game (app (initialWorld (E := Scenario.E)))) e2 = true
  /\ run (initialWorld (E := Scenario.E)) [SquareClick e2; SquareClick e2]
     = (initialWorld, []).
Proof.
  assert (Hf : friendly (game (app (initialWorld (E := Scenario.E)))) e2 = true)
    by (vm_compute; reflexivity).
  split; [apply reachable_initial|]. split; [exact Hf|].
  exact (proj2 (select_then_deselect initialWorld e2 reachable_initial
                  eq_refl eq_refl Hf)).
Defined.

Lemma idle_click_elsewhere_witness :
  friendly (game (app (initialWorld (E := Scenario.E)))) e4 = false
  /\ step (initialWorld (E := Scenario.E)) (SquareClick e4) = (initialWorld, []).
Proof.
  assert (Hf : friendly (game (app (initialWorld (E := Scenario.E)))) e4 = false)
    by (vm_compute; reflexivity).
  split; [exact Hf|].
  exact (idle_click_elsewhere initialWorld e4 reachable_initial eq_refl Hf).
Defined.

Lemma clicks_promote_to_queen_witness :
  reachable mate_world
  /\ Forall queen_or_none (history (gameState (app mate_world))).
Proof.
  assert (Hw : reachable mate_world) by (apply reachable_run, reachable_initial).
  split; [exact Hw|exact (clicks_promote_to_queen mate_world Hw)].
Defined.

Lemma thinking_while_pending_witness :
  reachable analyzing
  /\ pending analyzing = Some first_request
  /\ isAnalyzing (app analyzing) = true
  /\ analyzeLabel (app analyzing) = "Thinking..."%string.
Proof.
  assert (Hw : reachable analyzing) by (apply reachable_step, reachable_initial).
  assert (Hp : pending analyzing = Some first_request) by (vm_compute; reflexivity).
  assert (Hn : pending analyzing <> None) by (rewrite Hp; discriminate).
  destruct (thinking_while_pending analyzing Hw) as (H1 & H2 & _).
  split; [exact Hw|]. split; [exact Hp|].
  split; [apply H1; exact Hn|apply H2; exact Hn].
Defined.

Lemma last_move_highlight_witness :
  makeMove e2_selected (request e2 e4) = (e4_played, Some pawn_e4, [MOVE])
  /\ (forall x, isLastMove e4_played x = Square_eqb e2 x || Square_eqb e4 x)
  /\ isLastMove e4_played e2 = true.
Proof.
  assert (H : makeMove e2_selected (request e2 e4) = (e4_played, Some pawn_e4, [MOVE])).
  { apply triple_eta; vm_compute; reflexivity. }
  destruct (last_move_highlight _ _ _ _ _ H) as (Hmark & _ & _).
  split; [exact H|]. split; [exact Hmark|]. rewrite Hmark. reflexivity.
Defined.

Lemma overlay_names_the_winner_witness :
  reachable mate_world
  /\ gameOverShown (app mate_world) = true
  /\ gameOverText (app mate_world) = "Checkmate! White wins!"%string.
Proof.
  assert (Hw : reachable mate_world) by (apply reachable_run, reachable_initial).
  assert (Hwin : winner (gameState (app mate_world)) = Some (WinnerColor White))
    by (vm_compute; reflexivity).
  destruct (overlay_names_the_winner mate_world Hw) as (Hshown & Htext & _).
  split; [exact Hw|]. split.
  - apply Hshown. rewrite Hwin. discriminate.
  - rewrite Htext, Hwin. reflexivity.
Defined.

Lemma board_is_chequered_witness :
  NoDup StandardChess.files
  /\ isDark StandardChess.files Fb R1 = negb (isDark StandardChess.files Fa R1)
  /\ isDark StandardChess.files Fa R2 = negb (isDark StandardChess.files Fa R1).
Proof.
  assert (Hnd : NoDup StandardChess.files).
  { unfold StandardChess.files.
    repeat (constructor; [simpl; intuition discriminate|]). constructor. }
  destruct (board_is_chequered StandardChess.files Hnd) as [Hrow Hcol].
  split; [exact Hnd|]. split.
  - exact (Hrow 0%nat Fa Fb R1 eq_refl eq_refl).
  - apply Hcol; [left; reflexivity|reflexivity].
Defined.

Lemma coach_always_answers_witness :
  pending analyzing = Some first_request
  /\ analysis (app (fst (step analyzing
                           (AnalysisArrives
                              (fst (GeminiService.analyzePosition silent_api
                                      (request_fen first_request) []))))))
     = Some GeminiService.unable.
Proof.
  assert (Hp : pending analyzing = Some first_request) by (vm_compute; reflexivity).
  split; [exact Hp|].
  exact (proj1 (proj2 (coach_always_answers analyzing first_request silent_api [] Hp))).
Defined.

Lemma move_list_holds_one_move_witness :
  reachable after_e4
  /\ (List.length (history (gameState (app after_e4))) <= 1)%nat.
Proof.
  assert (Hw : reachable after_e4) by (apply reachable_run, reachable_initial).
  split; [exact Hw|exact (proj1 (move_list_holds_one_move after_e4 Hw))].
Defined.

End MoreOnTheBoard.
